(** * Deep literary style transfer: the style analyzer of [main.py]

    A shallow embedding of [syllable_count], [StyleAnalyzer.analyze] and
    [StyleAnalyzer.format_analysis_for_prompt], with the properties of the
    stylistic profile they compute.

    Conventions.
    - A Python [str] is a [string]; its characters are read as the code
      points U+0000..U+00FF.
    - Token and sentence counts are [nat], syllable counts are [Z] (the
      source decrements them), and every Python [float] is an ideal real
      number of [R]: division, [numpy.mean] and [numpy.std] are exact.
    - A raised exception is the [Raise] outcome of the [result] monad.
    - The spaCy pipeline [self.nlp] is a field of the analyzer: a function
      from the text to a [Doc] carrying the tokens, their flags and the
      sentences. *)

From Stdlib Require Import List String Ascii Bool Arith ZArith Lia.
From Stdlib Require Import Reals Lra Permutation Sorted.
Import ListNotations.

Local Open Scope string_scope.

(** ** Exceptions *)

Inductive exn : Type :=
| ValueError (msg : string)
| IndexError (msg : string).

Inductive result (A : Type) : Type :=
| Return (a : A)
| Raise (e : exn).

Arguments Return {A} a.
Arguments Raise {A} e.

Definition bind {A B : Type} (m : result A) (k : A -> result B) : result B :=
  match m with
  | Return a => k a
  | Raise e => Raise e
  end.

Notation "x <- m ;; k" := (bind m (fun x => k))
  (at level 61, m at next level, right associativity).

Definition raises {A : Type} (m : result A) : Prop :=
  exists e, m = Raise e.

(** ** The Python built-ins the program calls *)

Module Py.

Definition chars (s : string) : list ascii := list_ascii_of_string s.

(** [len(s)] *)
Definition len (s : string) : nat := String.length s.

(** [s[i]] for [0 <= i]: an [IndexError] out of range. *)
Definition getitem (s : string) (i : nat) : result ascii :=
  match String.get i s with
  | Some c => Return c
  | None => Raise (IndexError "string index out of range")
  end.

(** [s[i]] where the caller's loop bounds keep [i < len(s)]. *)
Definition char_at (s : string) (i : nat) : ascii :=
  match String.get i s with
  | Some c => c
  | None => zero
  end.

(** [c in s] for a one-character [c]. *)
Fixpoint contains (c : ascii) (s : string) : bool :=
  match s with
  | EmptyString => false
  | String a s' => Ascii.eqb c a || contains c s'
  end.

Definition between (lo hi n : nat) : bool := (lo <=? n)%nat && (n <=? hi)%nat.

(** [str.lower] on one code point below U+0100: A..Z and the accented
    capitals U+00C0..U+00DE (the sign U+00D7 apart) move up by 32. *)
Definition lower_char (c : ascii) : ascii :=
  let n := nat_of_ascii c in
  if between 65 90 n || (between 192 222 n && negb (n =? 215)%nat)
  then ascii_of_nat (n + 32)
  else c.

Fixpoint lower (s : string) : string :=
  match s with
  | EmptyString => EmptyString
  | String c s' => String (lower_char c) (lower s')
  end.

(** [str.isspace] on one code point below U+0100. *)
Definition isspace_char (c : ascii) : bool :=
  let n := nat_of_ascii c in
  between 9 13 n || between 28 32 n || (n =? 133)%nat || (n =? 160)%nat.

(** [str.isalpha] on one code point below U+0100. *)
Definition isalpha_char (c : ascii) : bool :=
  let n := nat_of_ascii c in
  between 65 90 n || between 97 122 n
  || (n =? 170)%nat || (n =? 181)%nat || (n =? 186)%nat
  || between 192 214 n || between 216 246 n || between 248 255 n.

Fixpoint lstrip (s : string) : string :=
  match s with
  | EmptyString => EmptyString
  | String c s' => if isspace_char c then lstrip s' else s
  end.

Definition reverse (s : string) : string :=
  string_of_list_ascii (rev (list_ascii_of_string s)).

Definition rstrip (s : string) : string := reverse (lstrip (reverse s)).

(** [s.strip()] *)
Definition strip (s : string) : string := rstrip (lstrip s).

(** [s.endswith(suffix)] *)
Definition endswith (s suffix : string) : bool :=
  (len suffix <=? len s)%nat
  && String.eqb (substring (len s - len suffix) (len suffix) s) suffix.

(** [range(a, b)] *)
Definition range (a b : nat) : list nat := seq a (b - a).

End Py.

(** ** [syllable_count] *)

Definition vowels : string := "aeiouy".

Local Open Scope Z_scope.

Definition syllable_count (word : string) : result Z :=
  let word := Py.lower word in
  let count := 0 in
  first <- Py.getitem word 0 ;;
  let count := if Py.contains first vowels then count + 1 else count in
  let count :=
    fold_left
      (fun count index =>
         if Py.contains (Py.char_at word index) vowels
            && negb (Py.contains (Py.char_at word (index - 1)) vowels)
         then count + 1 else count)
      (Py.range 1 (Py.len word)) count in
  let count := if Py.endswith word "e" then count - 1 else count in
  let count := if count =? 0 then count + 1 else count in
  Return count.

(** One turn of the loop of [syllable_count] over the word [w]. *)
Definition loop_step (w : string) (count : Z) (index : nat) : Z :=
  if Py.contains (Py.char_at w index) vowels
     && negb (Py.contains (Py.char_at w (index - 1)) vowels)
  then count + 1 else count.

(** The estimator in the specification's words: the number of vowel-group
    starts of the lower-cased word, less one for a final [e], clamped to a
    minimum of one. *)

Fixpoint vowel_group_starts (after_vowel : bool) (s : string) : Z :=
  match s with
  | EmptyString => 0
  | String c s' =>
      (if Py.contains c vowels && negb after_vowel then 1 else 0)
      + vowel_group_starts (Py.contains c vowels) s'
  end.

Fixpoint last_char (s : string) : option ascii :=
  match s with
  | EmptyString => None
  | String c EmptyString => Some c
  | String _ s' => last_char s'
  end.

Definition ends_in_e (s : string) : bool :=
  match last_char s with
  | Some c => Ascii.eqb c "e"%char
  | None => false
  end.

Definition syllable_estimate (word : string) : Z :=
  let w := Py.lower word in
  Z.max 1 (vowel_group_starts false w - (if ends_in_e w then 1 else 0)).

Local Close Scope Z_scope.

(** ** Lists, counters and sorting *)

Module Coll.

(** Truth value of a list: [if l] in Python. *)
Definition truthy {A : Type} (l : list A) : bool :=
  match l with
  | [] => false
  | _ :: _ => true
  end.

(** [set(l)], kept as the list of the distinct elements. *)
Definition set (l : list string) : list string := nodup string_dec l.

(** [collections.Counter]: a dictionary from key to tally, in the order
    in which the keys were first seen. *)
Definition counter : Type := list (string * nat).

Fixpoint counter_add (k : string) (c : counter) : counter :=
  match c with
  | [] => [(k, 1)]
  | (k', n) :: c' =>
      if String.eqb k k' then (k', S n) :: c' else (k', n) :: counter_add k c'
  end.

Definition Counter (l : list string) : counter :=
  fold_left (fun c k => counter_add k c) l [].

(** [c[k]], zero for a missing key. *)
Fixpoint tally (k : string) (c : counter) : nat :=
  match c with
  | [] => 0
  | (k', n) :: c' => if String.eqb k k' then n else tally k c'
  end.

(** [sum(c.values())] *)
Definition total (c : counter) : nat := fold_right Nat.add 0 (map snd c).

(** Every key of a counter has been seen at least once. *)
Definition positive_tallies (c : counter) : Prop :=
  Forall (fun kc => 0 < snd kc) c.

(** [sum] of floats. *)
Definition Rsum (l : list R) : R := fold_right Rplus 0%R l.

(** [sum] of integers. *)
Definition Zsum (l : list Z) : Z := fold_left Z.add l 0%Z.

(** [sorted(items, key=key, reverse=True)]: the stable sort by
    descending key. Entries with equal keys keep their order. *)
Section SortedReverse.
Context {A : Type}.
Variable key : A -> R.

Fixpoint insert_desc (x : A) (l : list A) : list A :=
  match l with
  | [] => [x]
  | y :: l' =>
      if Rle_dec (key y) (key x) then x :: y :: l'
      else y :: insert_desc x l'
  end.

Fixpoint sorted_reverse (l : list A) : list A :=
  match l with
  | [] => []
  | x :: l' => insert_desc x (sorted_reverse l')
  end.

(** The entries of [l] whose key is [v], in the order of [l]. *)
Definition with_key (v : R) (l : list A) : list A :=
  filter (fun x => if Req_dec_T (key x) v then true else false) l.

(** [a] may come before [b] in descending order of key. *)
Definition desc (a b : A) : Prop := (key b <= key a)%R.

(** [s] lists the entries of [l] by descending key, entries of equal
    key in the order they have in [l]. *)
Definition ranked (l s : list A) : Prop :=
  Permutation l s
  /\ StronglySorted desc s
  /\ forall v, with_key v s = with_key v l.

(** No entry left out of the first [k] has a larger key than one of
    them. *)
Definition leads (k : nat) (s : list A) : Prop :=
  forall x y, In x (firstn k s) -> In y (skipn k s) -> desc x y.
End SortedReverse.

End Coll.

(** ** [numpy.mean] and [numpy.std] *)

Module Np.

Definition mean (a : list R) : R := (Coll.Rsum a / INR (List.length a))%R.

(** [std = sqrt(mean(abs(a - a.mean())**2))] *)
Definition std (a : list R) : R :=
  let m := mean a in
  sqrt (mean (map (fun x => (Rabs (x - m) ^ 2)%R) a)).

End Np.

(** ** The linguistic pipeline's output *)

Record Token : Type := mkToken {
  text : string;
  pos_ : string;
  is_alpha : bool;
  is_punct : bool;
  is_space : bool
}.

Record Doc : Type := mkDoc {
  doc_text : string;
  doc_tokens : list Token;
  doc_sents : list (list Token)
}.

(** ** The stylistic profile returned by [analyze] *)

Record Profile : Type := mkProfile {
  avg_sentence_length : R;
  sentence_length_variance : R;
  type_token_ratio : R;
  pos_distribution : list (string * R);
  punctuation_distribution : list (string * R);
  flesch_reading_ease : R
}.

(** ** [StyleAnalyzer] *)

Record StyleAnalyzer : Type := mkStyleAnalyzer {
  nlp : string -> Doc
}.

(** [words = [token.text for token in doc if token.is_alpha]] *)
Definition words_of (doc : Doc) : list string :=
  map text (filter is_alpha (doc_tokens doc)).

(** [sum(syllable_count(word) for word in words)] *)
Fixpoint syllable_counts (words : list string) : result (list Z) :=
  match words with
  | [] => Return []
  | word :: rest =>
      n <- syllable_count word ;;
      ns <- syllable_counts rest ;;
      Return (n :: ns)
  end.

Definition sum_syllables (words : list string) : result Z :=
  ns <- syllable_counts words ;;
  Return (Coll.Zsum ns).

(** [[len([token for token in sent if token.is_alpha]) for sent in sentences]] *)
Definition sentence_lengths_of (sentences : list (list Token)) : list nat :=
  map (fun sent => List.length (filter is_alpha sent)) sentences.

(** [len(set(words)) / total_words if total_words > 0 else 0] *)
Definition ttr_of (words : list string) : R :=
  let total_words := List.length words in
  if (0 <? total_words)%nat
  then (INR (List.length (Coll.set words)) / INR total_words)%R
  else 0%R.

(** The tokens tallied by part of speech. *)
Definition content_tokens (doc : Doc) : list Token :=
  filter (fun token => negb (is_punct token) && negb (is_space token))
         (doc_tokens doc).

Definition pos_counts_of (doc : Doc) : Coll.counter :=
  Coll.Counter (map pos_ (content_tokens doc)).

(** [{pos: count / total_words for pos, count in pos_counts.items()}
     if total_words > 0 else {}] *)
Definition pos_distribution_of (doc : Doc) (total_words : nat)
  : list (string * R) :=
  if (0 <? total_words)%nat
  then map (fun '(pos, count) => (pos, (INR count / INR total_words)%R))
           (pos_counts_of doc)
  else [].

Definition punct_texts (doc : Doc) : list string :=
  map text (filter is_punct (doc_tokens doc)).

Definition punct_counts_of (doc : Doc) : Coll.counter :=
  Coll.Counter (punct_texts doc).

(** [{p: c / total_puncts for p, c in punct_counts.items()}
     if total_puncts > 0 else {}] *)
Definition punct_distribution_of (doc : Doc) : list (string * R) :=
  let punct_counts := punct_counts_of doc in
  let total_puncts := Coll.total punct_counts in
  if (0 <? total_puncts)%nat
  then map (fun '(p, c) => (p, (INR c / INR total_puncts)%R)) punct_counts
  else [].

(** The Flesch Reading Ease of lines 74 to 76. *)
Definition flesch_ease_of (total_words total_sentences : nat)
                          (total_syllables : Z) : R :=
  if (0 <? total_sentences)%nat && (0 <? total_words)%nat
  then (206.835 - 1.015 * (INR total_words / INR total_sentences)
        - 84.6 * (IZR total_syllables / INR total_words))%R
  else 0%R.

(** The messages of the two [ValueError]s of [analyze]. *)
Definition empty_input_message : string :=
  "Input text is empty or contains only whitespace.".

Definition no_content_message : string :=
  "Could not extract sentences or words from the text.".

Definition analyze (self : StyleAnalyzer) (text : string) : result Profile :=
  let doc := nlp self text in
  if negb (Coll.truthy (doc_tokens doc))
     || (Py.len (Py.strip (doc_text doc)) =? 0)%nat
  then Raise (ValueError "Input text is empty or contains only whitespace.")
  else
    let sentences := doc_sents doc in
    let words := words_of doc in
    if negb (Coll.truthy sentences) || negb (Coll.truthy words)
    then Raise (ValueError "Could not extract sentences or words from the text.")
    else
      let total_words := List.length words in
      let total_sentences := List.length sentences in
      total_syllables <- sum_syllables words ;;
      let sentence_lengths := map INR (sentence_lengths_of sentences) in
      let avg_sentence_length :=
        if Coll.truthy sentence_lengths then Np.mean sentence_lengths else 0%R in
      let std_sentence_length :=
        if Coll.truthy sentence_lengths then Np.std sentence_lengths else 0%R in
      let ttr := ttr_of words in
      let pos_distribution := pos_distribution_of doc total_words in
      let punct_distribution := punct_distribution_of doc in
      let flesch_ease :=
        flesch_ease_of total_words total_sentences total_syllables in
      Return {|
        avg_sentence_length := avg_sentence_length;
        sentence_length_variance := (std_sentence_length ^ 2)%R;
        type_token_ratio := ttr;
        pos_distribution := pos_distribution;
        punctuation_distribution := punct_distribution;
        flesch_reading_ease := flesch_ease
      |}.

(** ** [format_analysis_for_prompt] *)

Definition nl : string := String "010"%char EmptyString.

Section Formatter.

(** [format(value, spec)] of a float, as an f-string field
    [{value:spec}] renders it. *)
Variable format_float : string -> R -> string.

Definition top_pos (analysis : Profile) : list (string * R) :=
  firstn 5 (Coll.sorted_reverse snd (pos_distribution analysis)).

Definition top_puncts (analysis : Profile) : list (string * R) :=
  firstn 3 (Coll.sorted_reverse snd (punctuation_distribution analysis)).

Definition format_analysis_for_prompt
    (self : StyleAnalyzer) (analysis : Profile) (author_name : string)
  : string :=
  let prompt := "## Stylistic Analysis of " ++ author_name ++ nl ++ nl in
  let prompt := prompt
    ++ "- **Sentence Structure**: Emulate sentences with an average length of "
    ++ format_float ".1f" (avg_sentence_length analysis)
    ++ " words. The sentence length should be relatively consistent, with a variance of "
    ++ format_float ".1f" (sentence_length_variance analysis) ++ "." ++ nl in
  let prompt := prompt
    ++ "- **Vocabulary**: Use a vocabulary of moderate richness (Type-Token Ratio of around "
    ++ format_float ".2f" (type_token_ratio analysis)
    ++ "). Avoid overly obscure or complex words." ++ nl in
  let prompt := prompt
    ++ "- **Grammar (Part-of-Speech)**: The writing heavily features the following parts of speech. Replicate this distribution:"
    ++ nl in
  let prompt :=
    fold_left
      (fun prompt '(pos, percent) =>
         prompt ++ "  - " ++ pos ++ ": ~" ++ format_float ".1%" percent ++ nl)
      (top_pos analysis) prompt in
  let prompt := prompt
    ++ "- **Punctuation**: Punctuation usage is a key part of the style. Prioritize the following marks:"
    ++ nl in
  let prompt :=
    fold_left
      (fun prompt '(p, percent) =>
         prompt ++ "  - The '" ++ p ++ "' character comprises ~"
         ++ format_float ".1%" percent ++ " of all punctuation." ++ nl)
      (top_puncts analysis) prompt in
  let prompt := prompt
    ++ "- **Clarity**: The overall style is clear and direct, with a Flesch Reading Ease score around "
    ++ format_float ".0f" (flesch_reading_ease analysis)
    ++ ". Aim for this level of readability." ++ nl in
  prompt.

(** The sections of the style guide, as the specification lists them. *)

Definition guide_head (analysis : Profile) (author_name : string) : string :=
  "## Stylistic Analysis of " ++ author_name ++ nl ++ nl
  ++ "- **Sentence Structure**: Emulate sentences with an average length of "
  ++ format_float ".1f" (avg_sentence_length analysis)
  ++ " words. The sentence length should be relatively consistent, with a variance of "
  ++ format_float ".1f" (sentence_length_variance analysis) ++ "." ++ nl
  ++ "- **Vocabulary**: Use a vocabulary of moderate richness (Type-Token Ratio of around "
  ++ format_float ".2f" (type_token_ratio analysis)
  ++ "). Avoid overly obscure or complex words." ++ nl.

Definition grammar_title : string :=
  "- **Grammar (Part-of-Speech)**: The writing heavily features the following parts of speech. Replicate this distribution:"
  ++ nl.

(** One Grammar entry: the tag and its fraction as a percentage with one
    decimal. *)
Definition grammar_entry (item : string * R) : string :=
  "  - " ++ fst item ++ ": ~" ++ format_float ".1%" (snd item) ++ nl.

Definition punctuation_title : string :=
  "- **Punctuation**: Punctuation usage is a key part of the style. Prioritize the following marks:"
  ++ nl.

(** One Punctuation entry. *)
Definition punctuation_entry (item : string * R) : string :=
  "  - The '" ++ fst item ++ "' character comprises ~"
  ++ format_float ".1%" (snd item) ++ " of all punctuation." ++ nl.

Definition clarity_line (analysis : Profile) : string :=
  "- **Clarity**: The overall style is clear and direct, with a Flesch Reading Ease score around "
  ++ format_float ".0f" (flesch_reading_ease analysis)
  ++ ". Aim for this level of readability." ++ nl.

Definition join (lines : list string) : string :=
  fold_right String.append "" lines.

End Formatter.

(** ** What the linguistic pipeline guarantees *)

(** A token flagged [is_alpha] is a non-empty run of letters taken from the
    text of the document. *)
Definition word_token (source : string) (token : Token) : Prop :=
  text token <> ""
  /\ Forall (fun c => Py.isalpha_char c = true /\ In c (Py.chars source))
            (Py.chars (text token)).

Definition alpha_tokens_are_words (doc : Doc) : Prop :=
  Forall (fun token => is_alpha token = true -> word_token (doc_text doc) token)
         (doc_tokens doc).

(** A token flagged [is_alpha] is neither punctuation nor whitespace. *)
Definition alpha_tokens_are_content (doc : Doc) : Prop :=
  Forall (fun token =>
            is_alpha token = true ->
            is_punct token = false /\ is_space token = false)
         (doc_tokens doc).

(** The pipeline keeps the text it was given and flags only words as
    alphabetic. *)
Definition faithful (self : StyleAnalyzer) : Prop :=
  forall text,
    doc_text (nlp self text) = text
    /\ alpha_tokens_are_words (nlp self text).

(** ** The statistics in the specification's words *)

Definition arithmetic_mean (xs : list R) : R :=
  (Coll.Rsum xs / INR (List.length xs))%R.

(** The mean of the squared deviations from the mean, dividing by [N]. *)
Definition population_variance (xs : list R) : R :=
  let m := arithmetic_mean xs in
  (Coll.Rsum (map (fun x => (x - m) * (x - m)) xs) / INR (List.length xs))%R.

(** The same sum divided by [N - 1] (Bessel's correction). *)
Definition sample_variance (xs : list R) : R :=
  let m := arithmetic_mean xs in
  (Coll.Rsum (map (fun x => (x - m) * (x - m)) xs)
   / (INR (List.length xs) - 1))%R.

(** The Flesch Reading Ease formula. *)
Definition flesch_formula (total_words total_sentences : nat)
                          (total_syllables : Z) : R :=
  (206.835 - 1.015 * (INR total_words / INR total_sentences)
   - 84.6 * (IZR total_syllables / INR total_words))%R.

(** ** A table-driven pipeline for worked examples *)

Definition word (s pos : string) : Token := mkToken s pos true false false.
Definition punct (s : string) : Token := mkToken s "PUNCT" false true false.
Definition number (s : string) : Token := mkToken s "NUM" false false false.
Definition space (s : string) : Token := mkToken s "SPACE" false false true.

Definition dogs_text : string := "Dogs run. Cats run fast!".

Definition dogs_doc : Doc :=
  let s1 := [word "Dogs" "NOUN"; word "run" "VERB"; punct "."] in
  let s2 := [word "Cats" "NOUN"; word "run" "VERB"; word "fast" "ADV"; punct "!"] in
  mkDoc dogs_text (s1 ++ s2) [s1; s2].

Definition rooms_text : string := "Rooms 101 102 103.".

Definition rooms_doc : Doc :=
  let s1 := [word "Rooms" "NOUN"; number "101"; number "102"; number "103";
             punct "."] in
  mkDoc rooms_text s1 [s1].

Definition marks_text : string := "!!! ... ???".

Definition marks_doc : Doc :=
  let s1 := [punct "!"; punct "!"; punct "!"; punct "..."] in
  let s2 := [punct "?"; punct "?"; punct "?"] in
  mkDoc marks_text (s1 ++ s2) [s1; s2].

Definition blank_text : string := "   ".

Definition blank_doc : Doc :=
  mkDoc blank_text [space blank_text] [[space blank_text]].

Definition table_nlp (text : string) : Doc :=
  if String.eqb text dogs_text then dogs_doc
  else if String.eqb text rooms_text then rooms_doc
  else if String.eqb text marks_text then marks_doc
  else if String.eqb text blank_text then blank_doc
  else mkDoc text [] [].

Definition table_analyzer : StyleAnalyzer := mkStyleAnalyzer table_nlp.

(** ** The process around the analyzer: files, output and the model backend *)

(** What a run can raise: the errors of the analyzer, a missing file, the
    [OSError] of [spacy.load], an exception of the Ollama client. *)
Inductive failure : Type :=
| PyError (e : exn)
| FileNotFoundError (msg : string)
| OSError (msg : string)
| ClientError (msg : string).

(** [str(e)] *)
Definition failure_text (e : failure) : string :=
  match e with
  | PyError (ValueError msg) => msg
  | PyError (IndexError msg) => msg
  | FileNotFoundError msg => msg
  | OSError msg => msg
  | ClientError msg => msg
  end.

Record Message : Type := mkMessage {
  role : string;
  content : string
}.

(** The response of [client.chat], read through [response['message']]. *)
Record ChatResponse : Type := mkChatResponse {
  message : Message
}.

(** One call of [client.chat]. *)
Record ChatRequest : Type := mkChatRequest {
  request_host : option string;
  request_model : string;
  request_messages : list Message
}.

(** The state a run acts on: the files by path (a flat store in which every
    path can be written), the lines printed so far and the requests sent to
    the backend so far. *)
Record World : Type := mkWorld {
  files : list (string * string);
  stdout : list string;
  requests : list ChatRequest
}.

(** What lies outside the program: [spacy.load] ([None] for its
    [OSError]), the Ollama server reached through [client.list] ([Some]
    text of the exception it raises) and [client.chat] (the response, or
    the text of the exception), and the rendering of floats. *)
Record Env : Type := mkEnv {
  spacy_load : string -> option (string -> Doc);
  client_list : option string -> option string;
  client_chat : ChatRequest -> ChatResponse + string;
  py_format : string -> R -> string
}.

Inductive outcome (A : Type) : Type :=
| Done (a : A)
| Exit (code : nat)
| Uncaught (e : failure).

Arguments Done {A} a.
Arguments Exit {A} code.
Arguments Uncaught {A} e.

Definition IO (A : Type) : Type := World -> outcome A * World.

Definition io_ret {A : Type} (a : A) : IO A := fun w => (Done a, w).

Definition io_bind {A B : Type} (m : IO A) (k : A -> IO B) : IO B :=
  fun w =>
    match m w with
    | (Done a, w') => k a w'
    | (Exit code, w') => (Exit code, w')
    | (Uncaught e, w') => (Uncaught e, w')
    end.

Notation "x <~ m ;; k" := (io_bind m (fun x => k))
  (at level 61, m at next level, right associativity).

Notation "m ;;> k" := (io_bind m (fun _ => k))
  (at level 61, right associativity).

(** [raise] *)
Definition io_raise {A : Type} (e : failure) : IO A :=
  fun w => (Uncaught e, w).

(** [sys.exit(code)] *)
Definition sys_exit {A : Type} (code : nat) : IO A :=
  fun w => (Exit code, w).

(** [try: m except ...: handler], the handler choosing the exceptions it
    takes; [sys.exit] passes through. *)
Definition try_except {A : Type}
    (m : IO A) (handler : failure -> option (IO A)) : IO A :=
  fun w =>
    match m w with
    | (Uncaught e, w') =>
        match handler e with
        | Some h => h w'
        | None => (Uncaught e, w')
        end
    | r => r
    end.

(** A call of the analyzer inside the process. *)
Definition io_lift {A : Type} (r : result A) : IO A :=
  match r with
  | Return a => io_ret a
  | Raise e => io_raise (PyError e)
  end.

(** [print(line)] *)
Definition print (line : string) : IO unit :=
  fun w => (Done tt, mkWorld (files w) (stdout w ++ [line]) (requests w)).

Fixpoint fs_lookup (path : string) (fs : list (string * string))
  : option string :=
  match fs with
  | [] => None
  | (p, c) :: fs' => if String.eqb path p then Some c else fs_lookup path fs'
  end.

Fixpoint fs_write (path data : string) (fs : list (string * string))
  : list (string * string) :=
  match fs with
  | [] => [(path, data)]
  | (p, c) :: fs' =>
      if String.eqb path p then (p, data) :: fs'
      else (p, c) :: fs_write path data fs'
  end.

(** [with open(path, 'r', encoding='utf-8') as f: f.read()] *)
Definition read_file (path : string) : IO string :=
  fun w =>
    match fs_lookup path (files w) with
    | Some c => (Done c, w)
    | None =>
        (Uncaught (FileNotFoundError
                     ("[Errno 2] No such file or directory: '" ++ path ++ "'")),
         w)
    end.

(** [with open(path, 'w', encoding='utf-8') as f: f.write(data)] *)
Definition write_file (path data : string) : IO unit :=
  fun w =>
    (Done tt, mkWorld (fs_write path data (files w)) (stdout w) (requests w)).

(** [StyleAnalyzer.__init__] *)
Definition StyleAnalyzer_init (env : Env) (model : string) : IO StyleAnalyzer :=
  try_except
    (match spacy_load env model with
     | Some pipeline => io_ret (mkStyleAnalyzer pipeline)
     | None => io_raise (OSError ("[E050] Can't find model '" ++ model ++ "'."))
     end)
    (fun e =>
       match e with
       | OSError _ =>
           Some (print ("Spacy model '" ++ model ++ "' not found.") ;;>
                 print ("Please run: python -m spacy download " ++ model) ;;>
                 sys_exit 1)
       | _ => None
       end).

(** ** [StyleTransfer] *)

Record StyleTransfer : Type := mkStyleTransfer {
  transfer_model : string;
  transfer_host : option string
}.

(** [self.client.list()] *)
Definition client_list_call (env : Env) (self : StyleTransfer) : IO unit :=
  match client_list env (transfer_host self) with
  | None => io_ret tt
  | Some msg => io_raise (ClientError msg)
  end.

(** [self.client.chat(model=self.model, messages=messages)] *)
Definition client_chat_call
    (env : Env) (self : StyleTransfer) (messages : list Message)
  : IO ChatResponse :=
  fun w =>
    let request :=
      mkChatRequest (transfer_host self) (transfer_model self) messages in
    let w' := mkWorld (files w) (stdout w) (requests w ++ [request]) in
    match client_chat env request with
    | inl response => (Done response, w')
    | inr msg => (Uncaught (ClientError msg), w')
    end.

(** [StyleTransfer.__init__] *)
Definition StyleTransfer_init
    (env : Env) (model : string) (host : option string) : IO StyleTransfer :=
  let self := mkStyleTransfer model host in
  try_except
    (client_list_call env self ;;> io_ret self)
    (fun e =>
       Some (print ("Error connecting to Ollama: " ++ failure_text e) ;;>
             print "Please ensure Ollama is running and the model is installed (e.g., 'ollama run llama3')." ;;>
             sys_exit 1)).

Definition system_prompt : string :=
  "You are an expert literary editor. Your task is to rewrite a given text in the distinct style of a famous author. "
  ++ "You will be provided with a detailed, data-driven stylistic analysis of the target author's work. "
  ++ "You MUST adhere strictly to this analysis, focusing on sentence structure, grammar, and rhythm, not just word choice. "
  ++ "Do NOT add new ideas, content, or plot points. Preserve the original meaning and intent of the source text perfectly. "
  ++ "Rewrite ONLY the text provided.".

Definition user_prompt (source_text style_guide author_name : string)
  : string :=
  style_guide ++ nl ++ nl
  ++ "## Task" ++ nl ++ nl
  ++ "Rewrite the following source text into the style of " ++ author_name
  ++ ". "
  ++ "Apply the stylistic rules from the analysis above meticulously."
  ++ nl ++ nl
  ++ "### Source Text:" ++ nl ++ nl ++ "`" ++ source_text ++ "`" ++ nl ++ nl
  ++ "### Rewritten Text in the style of " ++ author_name ++ ":".

(** [StyleTransfer.rewrite] *)
Definition rewrite
    (env : Env) (self : StyleTransfer)
    (source_text style_guide author_name : string) : IO string :=
  print (nl ++ "--- Sending request to LLM... ---") ;;>
  response <~ client_chat_call env self
                [mkMessage "system" system_prompt;
                 mkMessage "user"
                   (user_prompt source_text style_guide author_name)] ;;
  print "--- Received response. ---" ;;>
  io_ret (content (message response)).

(** ** [main] *)

(** The parsed command line. *)
Record Args : Type := mkArgs {
  arg_source : string;
  arg_style_ref : string;
  arg_author : string;
  arg_output : string;
  arg_model : string;
  arg_ollama_host : option string
}.

(** The command line with only the required options given. *)
Definition default_args (source style_ref author : string) : Args :=
  mkArgs source style_ref author "output.txt" "llama3" None.

(** [main], from the parsed arguments on. *)
Definition main (env : Env) (args : Args) : IO unit :=
  texts <~ try_except
             (source_text <~ read_file (arg_source args) ;;
              style_ref_text <~ read_file (arg_style_ref args) ;;
              io_ret (source_text, style_ref_text))
             (fun e =>
                match e with
                | FileNotFoundError _ =>
                    Some (print ("Error: " ++ failure_text e) ;;> sys_exit 1)
                | _ => None
                end) ;;
  let source_text := fst texts in
  let style_ref_text := snd texts in
  print ("Analyzing the style of " ++ arg_author args ++ " from '"
         ++ arg_style_ref args ++ "'...") ;;>
  analyzer <~ StyleAnalyzer_init env "en_core_web_sm" ;;
  style_analysis <~ try_except
                      (io_lift (analyze analyzer style_ref_text))
                      (fun e =>
                         match e with
                         | PyError (ValueError _) =>
                             Some (print ("Error during analysis: "
                                          ++ failure_text e) ;;>
                                   sys_exit 1)
                         | _ => None
                         end) ;;
  let style_guide :=
    format_analysis_for_prompt (py_format env) analyzer style_analysis
                               (arg_author args) in
  print (nl ++ "--- Generated Style Guide ---") ;;>
  print style_guide ;;>
  print "---------------------------" ;;>
  transfer <~ StyleTransfer_init env (arg_model args) (arg_ollama_host args) ;;
  rewritten_text <~ rewrite env transfer source_text style_guide
                            (arg_author args) ;;
  print (nl ++ "--- Original Text ---") ;;>
  print source_text ;;>
  print (nl ++ "--- Rewritten in the style of " ++ arg_author args ++ " ---") ;;>
  print rewritten_text ;;>
  write_file (arg_output args) rewritten_text ;;>
  print (nl ++ "Result saved to '" ++ arg_output args ++ "'").

(** ** A backend for worked examples *)

Definition table_env : Env :=
  mkEnv
    (fun model =>
       if String.eqb model "en_core_web_sm" then Some table_nlp else None)
    (fun _ => None)
    (fun _ => inl (mkChatResponse (mkMessage "assistant" "Dogs ran. Cats ran faster!")))
    (fun _ _ => "0").

Definition table_world : World :=
  mkWorld [("source.txt", "The dogs were running."); ("style.txt", dogs_text)]
          [] [].

(** ** Tactics for the worked examples *)

Ltac in_list := repeat first [left; reflexivity | right].

Ltac word_token_ok :=
  split;
  [ discriminate
  | repeat (apply Forall_cons; [split; [reflexivity | cbv; in_list]|]);
    apply Forall_nil ].

(** Symbolic execution of a run of the process. *)
Ltac run_process :=
  unfold main, rewrite, StyleTransfer_init, StyleAnalyzer_init,
    client_list_call, client_chat_call, read_file, write_file, print,
    try_except, io_lift, io_bind, io_ret, io_raise, sys_exit;
  cbn [fst snd files stdout requests transfer_host transfer_model].


(** * Properties *)

(** ** The syllable estimator *)

Section SyllableCount.

Local Open Scope Z_scope.

Lemma lower_nonempty (word : string) :
  word <> "" -> Py.lower word <> "".
Proof. destruct word; simpl; congruence. Qed.


Lemma loop_counts_group_starts (w s : string) :
  forall (k : nat) (count : Z),
    (1 <= k)%nat ->
    (forall i, (i < String.length s)%nat ->
               String.get (k + i) w = String.get i s) ->
    fold_left (loop_step w) (seq k (String.length s)) count
    = count
      + vowel_group_starts (Py.contains (Py.char_at w (k - 1)) vowels) s.
Proof.
  induction s as [|b s IH]; intros k count Hk Hget.
  - simpl. lia.
  - cbn [String.length seq fold_left vowel_group_starts].
    assert (Hb : Py.char_at w k = b).
    { unfold Py.char_at. specialize (Hget 0%nat).
      rewrite Nat.add_0_r in Hget. rewrite Hget; [reflexivity | simpl; lia]. }
    rewrite IH.
    + replace (S k - 1)%nat with k by lia.
      unfold loop_step. rewrite Hb.
      destruct (Py.contains b vowels
                && negb (Py.contains (Py.char_at w (k - 1)) vowels)); lia.
    + lia.
    + intros i Hi. replace (S k + i)%nat with (k + S i)%nat by lia.
      rewrite Hget; [reflexivity | simpl; lia].
Qed.

Lemma endswith_e (w : string) : Py.endswith w "e" = ends_in_e w.
Proof.
  unfold Py.endswith, ends_in_e, Py.len.
  induction w as [|c w IH]; [reflexivity|].
  destruct w as [|d w].
  - simpl. destruct (Ascii.eqb_spec c "e"%char) as [->|Hc].
    + reflexivity.
    + destruct (String.eqb_spec (String c "") "e") as [E|]; congruence.
  - change (last_char (String c (String d w))) with (last_char (String d w)).
    rewrite <- IH. simpl. rewrite !Nat.sub_0_r. reflexivity.
Qed.

Lemma vowel_group_starts_nonneg (s : string) :
  forall p, 0 <= vowel_group_starts p s.
Proof.
  induction s as [|c s IH]; intros p; cbn [vowel_group_starts]; [lia|].
  specialize (IH (Py.contains c vowels)).
  destruct (Py.contains c vowels && negb p); lia.
Qed.

(** A word that ends in a vowel has a vowel group. *)
Lemma final_e_has_group (s : string) :
  forall p, ends_in_e s = true ->
            1 <= vowel_group_starts p s + (if p then 1 else 0).
Proof.
  unfold ends_in_e.
  induction s as [|c s IH]; intros p He; [discriminate|].
  destruct s as [|d s].
  - simpl in He. apply Ascii.eqb_eq in He. subst c. simpl.
    destruct p; simpl; lia.
  - change (last_char (String c (String d s))) with (last_char (String d s)) in He.
    specialize (IH (Py.contains c vowels) He).
    pose proof (vowel_group_starts_nonneg (String d s) (Py.contains c vowels)).
    change (vowel_group_starts p (String c (String d s)))
      with ((if Py.contains c vowels && negb p then 1 else 0)
            + vowel_group_starts (Py.contains c vowels) (String d s)).
    revert IH H.
    generalize (vowel_group_starts (Py.contains c vowels) (String d s)).
    intros v IH H.
    destruct (Py.contains c vowels), p; cbn [andb negb] in *; lia.
Qed.

Lemma syllable_estimate_pos (word : string) : 1 <= syllable_estimate word.
Proof. unfold syllable_estimate. lia. Qed.

Lemma syllable_count_refines (word : string) :
  word <> "" -> syllable_count word = Return (syllable_estimate word).
Proof.
  intros Hne. unfold syllable_count, syllable_estimate.
  pose proof (lower_nonempty word Hne) as Hl.
  destruct (Py.lower word) as [|a s] eqn:Ew; [congruence|].
  unfold Py.getitem, bind. cbn [String.get].
  unfold Py.range, Py.len. cbn [String.length].
  replace (S (String.length s) - 1)%nat with (String.length s) by lia.
  pose proof (loop_counts_group_starts (String a s) s 1
                (if Py.contains a vowels then 0 + 1 else 0)) as Hloop.
  unfold loop_step in Hloop. rewrite Hloop; [|lia|intros i _; reflexivity].
  clear Hloop. rewrite endswith_e.
  change (Py.char_at (String a s) (1 - 1)) with a.
  cbn [vowel_group_starts negb andb]. rewrite andb_true_r.
  pose proof (vowel_group_starts_nonneg s (Py.contains a vowels)) as Hn.
  pose proof (final_e_has_group (String a s) false) as He.
  cbn [vowel_group_starts negb] in He. rewrite andb_true_r in He.
  f_equal.
  destruct (ends_in_e (String a s)).
  - specialize (He eq_refl).
    destruct (Py.contains a vowels);
      match goal with |- context [?x =? 0] => destruct (Z.eqb_spec x 0) end;
      lia.
  - destruct (Py.contains a vowels);
      match goal with |- context [?x =? 0] => destruct (Z.eqb_spec x 0) end;
      lia.
Qed.

End SyllableCount.

(** C2. For every non-empty word, [syllable_count] returns an integer that
    is at least 1: the number of vowel-group starts of the lower-cased word
    (vowels a, e, i, o, u, y; a vowel counts when it is first or follows a
    non-vowel), less one when the word ends in e, clamped to a minimum
    of 1. *)
Theorem syllable_count_at_least_one (word : string) :
  word <> "" ->
  exists n : Z,
    syllable_count word = Return n
    /\ n = Z.max 1 (vowel_group_starts false (Py.lower word)
                    - (if ends_in_e (Py.lower word) then 1 else 0))
    /\ (1 <= n)%Z.
Proof.
  intros Hne. exists (syllable_estimate word).
  split; [apply syllable_count_refines; exact Hne|].
  split; [reflexivity | apply syllable_estimate_pos].
Qed.

Lemma syllable_count_at_least_one_witness :
  "Style" <> ""
  /\ exists n : Z,
       syllable_count "Style" = Return n
       /\ n = Z.max 1 (vowel_group_starts false (Py.lower "Style")
                       - (if ends_in_e (Py.lower "Style") then 1 else 0))
       /\ (1 <= n)%Z.
Proof.
  split; [discriminate|].
  apply (syllable_count_at_least_one "Style"). discriminate.
Defined.

Example syllable_count_the : syllable_count "The" = Return 1%Z.
Proof. reflexivity. Qed.

Example syllable_count_style : syllable_count "Style" = Return 1%Z.
Proof. reflexivity. Qed.

Example syllable_count_literary : syllable_count "LITERARY" = Return 4%Z.
Proof. reflexivity. Qed.

Example syllable_count_empty :
  syllable_count "" = Raise (IndexError "string index out of range").
Proof. reflexivity. Qed.

(** ** Counters *)

Section CounterFacts.

Import Coll.

Lemma total_counter_add (k : string) (c : counter) :
  total (counter_add k c) = S (total c).
Proof.
  unfold total. induction c as [|[k' n] c IH]; [reflexivity|].
  cbn [counter_add]. destruct (String.eqb k k'); cbn [map snd fold_right] in *.
  - reflexivity.
  - rewrite IH. lia.
Qed.

Lemma tally_counter_add (k k' : string) (c : counter) :
  tally k (counter_add k' c)
  = tally k c + (if String.eqb k k' then 1 else 0).
Proof.
  induction c as [|[k0 n] c IH]; cbn [counter_add tally].
  - destruct (String.eqb k k'); reflexivity.
  - destruct (String.eqb_spec k' k0) as [->|Hk']; cbn [tally].
    + destruct (String.eqb k k0); lia.
    + rewrite IH. destruct (String.eqb_spec k k0) as [->|Hk]; [|reflexivity].
      destruct (String.eqb_spec k0 k'); [congruence | lia].
Qed.

Lemma keys_counter_add (k k' : string) (c : counter) :
  In k (map fst (counter_add k' c)) <-> k = k' \/ In k (map fst c).
Proof.
  induction c as [|[k0 n] c IH]; cbn [counter_add map fst In].
  - intuition congruence.
  - destruct (String.eqb_spec k' k0) as [->|Hk']; cbn [map fst In].
    + intuition congruence.
    + rewrite IH. intuition congruence.
Qed.

Lemma NoDup_counter_add (k : string) (c : counter) :
  NoDup (map fst c) -> NoDup (map fst (counter_add k c)).
Proof.
  induction c as [|[k0 n] c IH]; cbn [counter_add map fst]; intros Hnd.
  - constructor; [intros [] | constructor].
  - inversion Hnd as [|? ? Hnotin Hnd']; subst.
    destruct (String.eqb_spec k k0) as [->|Hk]; cbn [map fst].
    + constructor; assumption.
    + constructor; [|apply IH; assumption].
      rewrite keys_counter_add. intuition congruence.
Qed.

Lemma positive_counter_add (k : string) (c : counter) :
  positive_tallies c -> positive_tallies (counter_add k c).
Proof.
  unfold positive_tallies.
  induction c as [|[k0 n] c IH]; cbn [counter_add]; intros Hp.
  - constructor; [simpl; lia | constructor].
  - inversion Hp; subst.
    destruct (String.eqb k k0); constructor; cbn [snd] in *; auto; lia.
Qed.

(** The state of the counter after tallying [l] on top of [c]. *)
Lemma tally_fold (l : list string) :
  forall c k,
    tally k (fold_left (fun c k => counter_add k c) l c)
    = tally k c + count_occ string_dec l k.
Proof.
  induction l as [|x l IH]; intros c k; cbn [fold_left count_occ]; [lia|].
  rewrite IH, tally_counter_add.
  destruct (string_dec x k) as [E|E];
    destruct (String.eqb_spec k x); try congruence; lia.
Qed.

Lemma total_fold (l : list string) :
  forall c,
    total (fold_left (fun c k => counter_add k c) l c)
    = total c + List.length l.
Proof.
  induction l as [|x l IH]; intros c; cbn [fold_left List.length]; [lia|].
  rewrite IH, total_counter_add. lia.
Qed.

Lemma NoDup_fold (l : list string) :
  forall c,
    NoDup (map fst c) ->
    NoDup (map fst (fold_left (fun c k => counter_add k c) l c)).
Proof.
  induction l as [|x l IH]; intros c Hc; cbn [fold_left]; [assumption|].
  apply IH, NoDup_counter_add, Hc.
Qed.

Lemma positive_fold (l : list string) :
  forall c,
    positive_tallies c ->
    positive_tallies (fold_left (fun c k => counter_add k c) l c).
Proof.
  induction l as [|x l IH]; intros c Hc; cbn [fold_left]; [assumption|].
  apply IH, positive_counter_add, Hc.
Qed.

Lemma Counter_tally (l : list string) (k : string) :
  tally k (Counter l) = count_occ string_dec l k.
Proof. unfold Counter. rewrite tally_fold. reflexivity. Qed.

Lemma Counter_total (l : list string) : total (Counter l) = List.length l.
Proof. unfold Counter. rewrite total_fold. reflexivity. Qed.

Lemma Counter_NoDup (l : list string) : NoDup (map fst (Counter l)).
Proof. unfold Counter. apply NoDup_fold. constructor. Qed.

Lemma Counter_positive (l : list string) : positive_tallies (Counter l).
Proof. unfold Counter. apply positive_fold. constructor. Qed.

Lemma tally_In (c : counter) (k : string) (n : nat) :
  NoDup (map fst c) -> In (k, n) c -> tally k c = n.
Proof.
  induction c as [|[k0 n0] c IH]; cbn [map fst In tally]; intros Hnd Hin.
  - contradiction.
  - inversion Hnd as [|? ? Hnotin Hnd']; subst.
    destruct Hin as [E|Hin].
    + inversion E; subst. rewrite String.eqb_refl. reflexivity.
    + destruct (String.eqb_spec k k0) as [->|Hk]; [|auto].
      exfalso. apply Hnotin. apply (in_map fst) in Hin. exact Hin.
Qed.

Lemma In_tally (c : counter) (k : string) :
  0 < tally k c -> In (k, tally k c) c.
Proof.
  induction c as [|[k0 n0] c IH]; cbn [tally In]; intros Hpos; [lia|].
  destruct (String.eqb_spec k k0) as [->|Hk]; [left; reflexivity|].
  right. apply IH, Hpos.
Qed.

(** The entries of [Counter l] are the distinct elements of [l], each
    with its number of occurrences. *)
Lemma Counter_entries (l : list string) (k : string) (n : nat) :
  In (k, n) (Counter l) <-> In k l /\ n = count_occ string_dec l k.
Proof.
  split.
  - intros Hin.
    pose proof (tally_In _ _ _ (Counter_NoDup l) Hin) as Ht.
    rewrite Counter_tally in Ht. subst n. split; [|reflexivity].
    apply (count_occ_In string_dec).
    pose proof (Counter_positive l) as Hp. unfold positive_tallies in Hp.
    rewrite Forall_forall in Hp. apply (Hp _ Hin).
  - intros [Hin ->]. rewrite <- Counter_tally.
    apply In_tally. rewrite Counter_tally.
    apply (count_occ_In string_dec). exact Hin.
Qed.

(** Dividing every tally by [d] and adding up gives the total over [d]. *)
Lemma Rsum_fractions (c : counter) (d : nat) :
  Rsum (map snd (map (fun '(k, n) => (k, (INR n / INR d)%R)) c))
  = (INR (total c) / INR d)%R.
Proof.
  unfold total, Rsum.
  induction c as [|[k n] c IH]; cbn [map snd fold_right].
  - unfold Rdiv. simpl. lra.
  - rewrite IH, plus_INR. unfold Rdiv. lra.
Qed.

Lemma fractions_entries (c : counter) (d : nat) (k : string) (v : R) :
  In (k, v) (map (fun '(k, n) => (k, (INR n / INR d)%R)) c)
  <-> exists n, In (k, n) c /\ v = (INR n / INR d)%R.
Proof.
  rewrite in_map_iff. split.
  - intros [[k0 n] [E Hin]]. inversion E; subst. eauto.
  - intros [n [Hin ->]]. exists (k, n). auto.
Qed.

Lemma fractions_keys (c : counter) (d : nat) :
  map fst (map (fun '(k, n) => (k, (INR n / INR d)%R)) c) = map fst c.
Proof.
  rewrite map_map. apply map_ext. intros [k n]. reflexivity.
Qed.

End CounterFacts.

(** ** The shape of a successful analysis *)

Lemma truthy_nonempty {A : Type} (l : list A) :
  Coll.truthy l = true <-> l <> [].
Proof. destruct l; simpl; split; congruence. Qed.

Lemma truthy_length {A : Type} (l : list A) :
  Coll.truthy l = true <-> 0 < List.length l.
Proof. destruct l; simpl; split; intros; (congruence || lia). Qed.

(** What [analyze] has checked and computed when it returns. *)
Lemma analyze_returns (self : StyleAnalyzer) (text : string) (p : Profile) :
  analyze self text = Return p ->
  let doc := nlp self text in
  let lengths := map INR (sentence_lengths_of (doc_sents doc)) in
  Coll.truthy (doc_tokens doc) = true
  /\ Py.len (Py.strip (doc_text doc)) <> 0
  /\ Coll.truthy (doc_sents doc) = true
  /\ Coll.truthy (words_of doc) = true
  /\ exists total_syllables,
       sum_syllables (words_of doc) = Return total_syllables
       /\ p = {|
           avg_sentence_length := Np.mean lengths;
           sentence_length_variance := (Np.std lengths ^ 2)%R;
           type_token_ratio := ttr_of (words_of doc);
           pos_distribution :=
             pos_distribution_of doc (List.length (words_of doc));
           punctuation_distribution := punct_distribution_of doc;
           flesch_reading_ease :=
             flesch_ease_of (List.length (words_of doc))
                            (List.length (doc_sents doc)) total_syllables
         |}.
Proof.
  unfold analyze. intros H. cbv zeta.
  destruct (Coll.truthy (doc_tokens (nlp self text))) eqn:Htok;
    cbn [negb orb] in H; [|discriminate].
  destruct (Nat.eqb_spec (Py.len (Py.strip (doc_text (nlp self text)))) 0)
    as [|Hlen]; [discriminate|].
  destruct (Coll.truthy (doc_sents (nlp self text))) eqn:Hsents;
    cbn [negb orb] in H; [|discriminate].
  destruct (Coll.truthy (words_of (nlp self text))) eqn:Hwords;
    cbn [negb] in H; [|discriminate].
  destruct (sum_syllables (words_of (nlp self text))) as [syl|e] eqn:Hsyl;
    cbn [bind] in H; [|discriminate].
  assert (Hl : Coll.truthy
                 (map INR (sentence_lengths_of (doc_sents (nlp self text))))
               = true).
  { unfold sentence_lengths_of.
    destruct (doc_sents (nlp self text)); [discriminate | reflexivity]. }
  rewrite Hl in H. inversion H; subst p; clear H.
  repeat split; try assumption. exists syl. split; reflexivity.
Qed.

(** Conversely, the checks of [analyze] passed and every word having a
    syllable count, it returns. *)
Lemma analyze_defined (self : StyleAnalyzer) (text : string) :
  let doc := nlp self text in
  Coll.truthy (doc_tokens doc) = true ->
  Py.len (Py.strip (doc_text doc)) <> 0 ->
  Coll.truthy (doc_sents doc) = true ->
  Coll.truthy (words_of doc) = true ->
  (exists total_syllables,
      sum_syllables (words_of doc) = Return total_syllables) ->
  exists p, analyze self text = Return p.
Proof.
  cbv zeta. intros Htok Hlen Hsents Hwords [syl Hsyl].
  unfold analyze. rewrite Htok, Hsents, Hwords, Hsyl.
  destruct (Nat.eqb_spec (Py.len (Py.strip (doc_text (nlp self text)))) 0);
    [contradiction|].
  cbn [negb orb bind]. eexists. reflexivity.
Qed.

Lemma syllable_counts_defined (words : list string) :
  Forall (fun w => w <> "") words ->
  exists ns, syllable_counts words = Return ns.
Proof.
  induction 1 as [|w ws Hw _ [ns IH]]; cbn [syllable_counts].
  - eexists. reflexivity.
  - rewrite (syllable_count_refines w Hw), IH. cbn [bind].
    eexists. reflexivity.
Qed.

Lemma sum_syllables_defined (words : list string) :
  Forall (fun w => w <> "") words ->
  exists n, sum_syllables words = Return n.
Proof.
  intros H. destruct (syllable_counts_defined words H) as [ns E].
  unfold sum_syllables. rewrite E. cbn [bind]. eexists. reflexivity.
Qed.

(** ** Insufficient input *)

Lemma words_nonempty (doc : Doc) :
  alpha_tokens_are_words doc -> Forall (fun w => w <> "") (words_of doc).
Proof.
  unfold alpha_tokens_are_words, words_of.
  induction 1 as [|t ts Ht _ IH]; cbn [filter map]; [constructor|].
  destruct (is_alpha t) eqn:Ea; [|exact IH].
  cbn [map]. constructor; [|exact IH]. apply Ht. reflexivity.
Qed.

(** A text without a letter has no alphabetic token. *)
Lemma no_letter_no_word (doc : Doc) :
  alpha_tokens_are_words doc ->
  (forall c, In c (Py.chars (doc_text doc)) -> Py.isalpha_char c = false) ->
  words_of doc = [].
Proof.
  unfold alpha_tokens_are_words, words_of. intros Hwf Hno.
  induction Hwf as [|t ts Ht _ IH]; cbn [filter map]; [reflexivity|].
  destruct (is_alpha t) eqn:Ea; [|exact IH].
  exfalso. destruct (Ht eq_refl) as [Hne Hall].
  unfold Py.chars in Hall at 2.
  destruct (text t) as [|c s]; [congruence|].
  cbn [list_ascii_of_string] in Hall.
  inversion Hall as [|? ? [Halpha Hin] _]; subst.
  rewrite (Hno c Hin) in Halpha. discriminate.
Qed.

Lemma no_tokens_no_words (doc : Doc) :
  Coll.truthy (doc_tokens doc) = false -> words_of doc = [].
Proof.
  unfold words_of. destruct (doc_tokens doc); [reflexivity | discriminate].
Qed.

Lemma truthy_false {A : Type} (l : list A) :
  Coll.truthy l = false <-> l = [].
Proof. destruct l; simpl; split; congruence. Qed.

(** The outcome of [analyze] on a document that fails one of its checks. *)
Lemma analyze_rejects (self : StyleAnalyzer) (text : string) :
  let doc := nlp self text in
  Py.len (Py.strip (doc_text doc)) = 0
  \/ doc_sents doc = [] \/ words_of doc = [] ->
  analyze self text = Raise (ValueError empty_input_message)
  \/ analyze self text = Raise (ValueError no_content_message).
Proof.
  cbv zeta. intros H. unfold analyze.
  destruct (Coll.truthy (doc_tokens (nlp self text))); cbn [negb orb];
    [|left; reflexivity].
  destruct (Nat.eqb_spec (Py.len (Py.strip (doc_text (nlp self text)))) 0)
    as [|Hlen]; [left; reflexivity|].
  right. destruct H as [H|[H|H]]; [contradiction| |]; rewrite H; cbn.
  - reflexivity.
  - rewrite orb_true_r. reflexivity.
Qed.

Lemma table_analyzer_faithful : faithful table_analyzer.
Proof.
  intros text. cbn [nlp table_analyzer]. unfold table_nlp.
  destruct (String.eqb_spec text dogs_text) as [->|_];
    [|destruct (String.eqb_spec text rooms_text) as [->|_];
      [|destruct (String.eqb_spec text marks_text) as [->|_];
        [|destruct (String.eqb_spec text blank_text) as [->|_]]]];
    (split; [reflexivity|]);
    unfold alpha_tokens_are_words;
    repeat (apply Forall_cons;
            [intros Ha; first [discriminate Ha | word_token_ok]|]);
    apply Forall_nil.
Qed.

(** C3. With a pipeline that keeps the text and flags only words as
    alphabetic, [analyze] raises, returning no profile, exactly when the
    input is insufficient: the trimmed text has length zero, or the
    pipeline yields no sentence or no alphabetic token. The empty text, the
    blank text and the text made of punctuation marks only all fail. *)
Theorem analyze_fails_exactly_on_insufficient_input (self : StyleAnalyzer) :
  faithful self ->
  (forall text,
      raises (analyze self text)
      <-> (Py.len (Py.strip text) = 0
           \/ doc_sents (nlp self text) = []
           \/ words_of (nlp self text) = []))
  /\ (forall text,
         Py.len (Py.strip text) = 0 ->
         analyze self text = Raise (ValueError empty_input_message))
  /\ raises (analyze self "")
  /\ raises (analyze self "   ")
  /\ raises (analyze self "!!! ... ???").
Proof.
  intros Hf.
  assert (Hiff : forall text,
             raises (analyze self text)
             <-> (Py.len (Py.strip text) = 0
                  \/ doc_sents (nlp self text) = []
                  \/ words_of (nlp self text) = [])).
  { intros text. destruct (Hf text) as [Htext Hwf]. split.
    - intros [e He].
      destruct (Nat.eq_dec (Py.len (Py.strip text)) 0) as [|Hlen]; [auto|].
      destruct (doc_sents (nlp self text)) as [|s ss] eqn:Hs; [auto|].
      destruct (words_of (nlp self text)) as [|w ws] eqn:Hw; [auto|].
      exfalso.
      destruct (analyze_defined self text) as [p Hp].
      + destruct (Coll.truthy (doc_tokens (nlp self text))) eqn:Ht;
          [reflexivity|].
        apply no_tokens_no_words in Ht. congruence.
      + rewrite Htext. exact Hlen.
      + rewrite Hs. reflexivity.
      + rewrite Hw. reflexivity.
      + apply sum_syllables_defined, words_nonempty, Hwf.
      + congruence.
    - intros H.
      assert (H' : Py.len (Py.strip (doc_text (nlp self text))) = 0
                   \/ doc_sents (nlp self text) = []
                   \/ words_of (nlp self text) = [])
        by (rewrite Htext; exact H).
      destruct (analyze_rejects self text H') as [E|E]; rewrite E;
        eexists; reflexivity. }
  split; [exact Hiff|].
  split.
  { intros text Hlen. destruct (Hf text) as [Htext _].
    unfold analyze. rewrite Htext, Hlen, orb_true_r. reflexivity. }
  split; [apply Hiff; left; reflexivity|].
  split; [apply Hiff; left; reflexivity|].
  apply Hiff. right. right.
  destruct (Hf "!!! ... ???") as [Htext Hwf].
  apply no_letter_no_word; [exact Hwf|].
  rewrite Htext. intros c Hin. cbv in Hin.
  repeat (destruct Hin as [<-|Hin]; [reflexivity|]). contradiction.
Qed.

Lemma analyze_fails_exactly_on_insufficient_input_witness :
  faithful table_analyzer
  /\ raises (analyze table_analyzer "")
  /\ raises (analyze table_analyzer "   ")
  /\ raises (analyze table_analyzer "!!! ... ???").
Proof.
  split; [exact table_analyzer_faithful|].
  apply (analyze_fails_exactly_on_insufficient_input
           table_analyzer table_analyzer_faithful).
Defined.

Example analyze_empty :
  analyze table_analyzer "" = Raise (ValueError empty_input_message).
Proof. reflexivity. Qed.

Example analyze_blank :
  analyze table_analyzer "   " = Raise (ValueError empty_input_message).
Proof. reflexivity. Qed.

Example analyze_marks :
  analyze table_analyzer "!!! ... ???" = Raise (ValueError no_content_message).
Proof. reflexivity. Qed.

(** ** Sentence statistics *)

Section SentenceStatistics.

Local Open Scope R_scope.

Lemma Rsum_nonneg (l : list R) :
  Forall (fun x => 0 <= x) l -> 0 <= Coll.Rsum l.
Proof.
  unfold Coll.Rsum. induction 1; cbn [fold_right]; lra.
Qed.

Lemma mean_nonneg (l : list R) :
  Forall (fun x => 0 <= x) l -> 0 <= Np.mean l.
Proof.
  intros H. unfold Np.mean. destruct l as [|x l].
  - unfold Coll.Rsum, Rdiv. simpl. lra.
  - apply Rmult_le_pos; [apply Rsum_nonneg, H|].
    apply Rlt_le, Rinv_0_lt_compat, lt_0_INR. simpl. lia.
Qed.

Lemma mean_is_arithmetic_mean (l : list R) :
  Np.mean l = arithmetic_mean l.
Proof. reflexivity. Qed.

Lemma squared_deviations (m : R) (l : list R) :
  map (fun x => Rabs (x - m) ^ 2) l = map (fun x => (x - m) * (x - m)) l.
Proof.
  apply map_ext. intros x. rewrite pow2_abs. simpl. ring.
Qed.

(** Squaring the standard deviation gives back the mean of the squared
    deviations, which is never negative. *)
Lemma std_squared (l : list R) : Np.std l ^ 2 = population_variance l.
Proof.
  unfold Np.std, population_variance. cbv zeta.
  rewrite pow2_sqrt.
  - unfold Np.mean at 1. rewrite squared_deviations, length_map.
    reflexivity.
  - apply mean_nonneg. rewrite Forall_map, Forall_forall.
    intros x _. apply pow2_ge_0.
Qed.

End SentenceStatistics.

Lemma sentence_statistics
    (self : StyleAnalyzer) (text : string) (p : Profile) :
  analyze self text = Return p ->
  let counts :=
    map (fun sent => INR (List.length (filter is_alpha sent)))
        (doc_sents (nlp self text)) in
  sentence_length_variance p = (Np.std counts ^ 2)%R
  /\ avg_sentence_length p = Np.mean counts.
Proof.
  intros H. apply analyze_returns in H.
  destruct H as (_ & _ & _ & _ & syl & _ & ->).
  cbn [sentence_length_variance avg_sentence_length].
  unfold sentence_lengths_of. rewrite map_map. split; reflexivity.
Qed.

(** C4. For every analyzed text, [sentence_length_variance] is the
    population variance of the per-sentence counts of alphabetic tokens
    (the mean of the squared deviations from the mean, dividing by N), and
    [avg_sentence_length] is their arithmetic mean. *)
Theorem variance_is_population_variance
    (self : StyleAnalyzer) (text : string) (p : Profile) :
  analyze self text = Return p ->
  let counts :=
    map (fun sent => INR (List.length (filter is_alpha sent)))
        (doc_sents (nlp self text)) in
  sentence_length_variance p = population_variance counts
  /\ avg_sentence_length p = arithmetic_mean counts.
Proof.
  intros H. destruct (sentence_statistics self text p H) as [Hvar Havg].
  cbv zeta. rewrite Hvar, Havg.
  split; [apply std_squared | apply mean_is_arithmetic_mean].
Qed.

Lemma variance_is_population_variance_witness :
  exists p,
    analyze table_analyzer dogs_text = Return p
    /\ sentence_length_variance p = population_variance [INR 2; INR 3]
    /\ avg_sentence_length p = arithmetic_mean [INR 2; INR 3].
Proof.
  eexists. split; [reflexivity|].
  apply (variance_is_population_variance table_analyzer dogs_text _ eq_refl).
Defined.

(** ** The worked example of the specification *)

Section WorkedExample.

Local Open Scope R_scope.

Lemma mean_2_3 : arithmetic_mean [INR 2; INR 3] = 2.5.
Proof. unfold arithmetic_mean, Coll.Rsum. simpl. lra. Qed.

Lemma population_variance_2_3 : population_variance [INR 2; INR 3] = 0.25.
Proof.
  unfold population_variance. rewrite mean_2_3.
  unfold Coll.Rsum. simpl. lra.
Qed.

Lemma sample_variance_2_3 : sample_variance [INR 2; INR 3] = 0.5.
Proof.
  unfold sample_variance. rewrite mean_2_3.
  unfold Coll.Rsum. simpl. lra.
Qed.

Lemma ttr_dogs : ttr_of ["Dogs"; "run"; "Cats"; "run"; "fast"] = 0.8.
Proof.
  unfold ttr_of.
  change (List.length (Coll.set ["Dogs"; "run"; "Cats"; "run"; "fast"]))
    with 4%nat.
  simpl. lra.
Qed.

End WorkedExample.

(** C9. When the pipeline yields two sentences whose alphabetic tokens are
    Dogs, run and Cats, run, fast (as for the text of the worked example),
    [analyze] returns a profile with a type-token ratio of 4/5 = 0.8, an
    average sentence length of 2.5 and a sentence-length variance
    of 0.25. *)
Theorem dogs_and_cats_profile
    (self : StyleAnalyzer) (input : string) (s1 s2 : list Token) :
  Py.len (Py.strip (doc_text (nlp self input))) <> 0 ->
  doc_sents (nlp self input) = [s1; s2] ->
  map text (filter is_alpha s1) = ["Dogs"; "run"] ->
  map text (filter is_alpha s2) = ["Cats"; "run"; "fast"] ->
  words_of (nlp self input) = ["Dogs"; "run"; "Cats"; "run"; "fast"] ->
  exists p,
    analyze self input = Return p
    /\ type_token_ratio p = (4 / 5)%R
    /\ type_token_ratio p = 0.8%R
    /\ avg_sentence_length p = 2.5%R
    /\ sentence_length_variance p = 0.25%R.
Proof.
  intros Hlen Hsents H1 H2 Hwords.
  destruct (analyze_defined self input) as [p Hp].
  - destruct (Coll.truthy (doc_tokens (nlp self input))) eqn:Ht;
      [reflexivity|].
    apply no_tokens_no_words in Ht. congruence.
  - exact Hlen.
  - rewrite Hsents. reflexivity.
  - rewrite Hwords. reflexivity.
  - rewrite Hwords. eexists. reflexivity.
  - exists p. split; [exact Hp|].
    destruct (sentence_statistics self input p Hp) as [Hvar Havg].
    rewrite std_squared, mean_is_arithmetic_mean in *.
    apply analyze_returns in Hp.
    destruct Hp as (_ & _ & _ & _ & syl & _ & Ep).
    assert (Hcounts :
              map (fun sent => INR (List.length (filter is_alpha sent)))
                  (doc_sents (nlp self input)) = [INR 2; INR 3]).
    { rewrite Hsents. cbn [map].
      rewrite <- (length_map text (filter is_alpha s1)), H1.
      rewrite <- (length_map text (filter is_alpha s2)), H2.
      reflexivity. }
    rewrite Hcounts in Hvar, Havg.
    rewrite Hvar, Havg, population_variance_2_3, mean_2_3.
    rewrite Ep. cbn [type_token_ratio]. rewrite Hwords, ttr_dogs.
    repeat split; lra.
Qed.

Lemma dogs_and_cats_profile_witness :
  exists p,
    analyze table_analyzer dogs_text = Return p
    /\ type_token_ratio p = (4 / 5)%R
    /\ type_token_ratio p = 0.8%R
    /\ avg_sentence_length p = 2.5%R
    /\ sentence_length_variance p = 0.25%R.
Proof.
  apply (dogs_and_cats_profile table_analyzer dogs_text
           [word "Dogs" "NOUN"; word "run" "VERB"; punct "."]
           [word "Cats" "NOUN"; word "run" "VERB"; word "fast" "ADV";
            punct "!"]);
    [discriminate | reflexivity | reflexivity | reflexivity | reflexivity].
Defined.

(** ** Vocabulary richness *)

Lemma set_distinct (l : list string) :
  NoDup (Coll.set l) /\ forall w, In w (Coll.set l) <-> In w l.
Proof.
  unfold Coll.set. split; [apply NoDup_nodup | intros w; apply nodup_In].
Qed.

Lemma set_length_le (l : list string) :
  List.length (Coll.set l) <= List.length l.
Proof.
  apply NoDup_incl_length; [apply set_distinct|].
  intros w Hw. apply set_distinct, Hw.
Qed.

Lemma ttr_of_words (words : list string) :
  0 < List.length words ->
  ttr_of words
  = (INR (List.length (Coll.set words)) / INR (List.length words))%R.
Proof.
  intros H. unfold ttr_of.
  destruct (Nat.ltb_spec 0 (List.length words)); [reflexivity | lia].
Qed.

Lemma ttr_of_bounds (words : list string) :
  (0 <= ttr_of words <= 1)%R.
Proof.
  unfold ttr_of. destruct (Nat.ltb_spec 0 (List.length words)) as [H|H];
    [|lra].
  pose proof (set_length_le words) as Hle.
  apply le_INR in Hle. apply lt_0_INR in H.
  pose proof (pos_INR (List.length (Coll.set words))) as H0.
  split.
  - apply Rmult_le_pos; [exact H0|]. apply Rlt_le, Rinv_0_lt_compat, H.
  - apply (Rmult_le_reg_r (INR (List.length words))); [exact H|].
    unfold Rdiv. rewrite Rmult_assoc, Rinv_l; lra.
Qed.

(** C5. For every analyzed text, whose [total_words] is positive,
    [type_token_ratio] is the number of distinct exact surface forms among
    the alphabetic tokens divided by [total_words], and lies in [0,1]; the
    ratio of an empty list of words is 0. *)
Theorem type_token_ratio_distinct_forms
    (self : StyleAnalyzer) (text : string) (p : Profile) :
  analyze self text = Return p ->
  let words := words_of (nlp self text) in
  let types := Coll.set words in
  (NoDup types /\ forall w, In w types <-> In w words)
  /\ 0 < List.length words
  /\ type_token_ratio p
     = (INR (List.length types) / INR (List.length words))%R
  /\ (0 <= type_token_ratio p <= 1)%R
  /\ ttr_of [] = 0%R.
Proof.
  intros H. apply analyze_returns in H.
  destruct H as (_ & _ & _ & Hw & syl & _ & ->).
  cbn [type_token_ratio]. cbv zeta.
  apply truthy_length in Hw.
  split; [apply set_distinct|].
  split; [exact Hw|].
  split; [apply ttr_of_words, Hw|].
  split; [apply ttr_of_bounds | reflexivity].
Qed.

Lemma type_token_ratio_distinct_forms_witness :
  exists p,
    analyze table_analyzer dogs_text = Return p
    /\ type_token_ratio p = (INR 4 / INR 5)%R
    /\ (0 <= type_token_ratio p <= 1)%R.
Proof.
  eexists. split; [reflexivity|].
  pose proof (type_token_ratio_distinct_forms
                table_analyzer dogs_text _ eq_refl) as H.
  cbv zeta in H. destruct H as (_ & _ & Hr & Hb & _).
  split; [exact Hr | exact Hb].
Defined.

(** Surface forms are compared exactly: a capital makes another type. *)
Example set_case_sensitive : List.length (Coll.set ["The"; "the"; "the"]) = 2.
Proof. reflexivity. Qed.

(** ** Readability *)

Lemma syllable_counts_each (words : list string) :
  forall counts,
    syllable_counts words = Return counts ->
    Forall2 (fun w n => syllable_count w = Return n) words counts.
Proof.
  induction words as [|w ws IH]; intros counts H; cbn [syllable_counts] in H.
  - inversion H. constructor.
  - destruct (syllable_count w) as [n|e] eqn:Ew; cbn [bind] in H;
      [|discriminate].
    destruct (syllable_counts ws) as [ns|e] eqn:Ews; cbn [bind] in H;
      [|discriminate].
    inversion H; subst. constructor; [exact Ew | apply IH; reflexivity].
Qed.

Lemma sum_syllables_each (words : list string) (total : Z) :
  sum_syllables words = Return total ->
  exists counts,
    Forall2 (fun w n => syllable_count w = Return n) words counts
    /\ total = Coll.Zsum counts.
Proof.
  unfold sum_syllables. intros H.
  destruct (syllable_counts words) as [ns|e] eqn:E; cbn [bind] in H;
    [|discriminate].
  inversion H; subst. exists ns. split; [|reflexivity].
  apply syllable_counts_each, E.
Qed.

Lemma flesch_ease_of_positive (w s : nat) (syl : Z) :
  0 < s -> 0 < w -> flesch_ease_of w s syl = flesch_formula w s syl.
Proof.
  intros Hs Hw. unfold flesch_ease_of.
  destruct (Nat.ltb_spec 0 s); [|lia].
  destruct (Nat.ltb_spec 0 w); [reflexivity | lia].
Qed.

Lemma flesch_ease_of_zero (w s : nat) (syl : Z) :
  s = 0 \/ w = 0 -> flesch_ease_of w s syl = 0%R.
Proof.
  intros [-> | ->]; unfold flesch_ease_of; [reflexivity|].
  rewrite andb_false_r. reflexivity.
Qed.

(** C6. For every analyzed text, [flesch_reading_ease] is
    206.835 - 1.015 * (total_words / total_sentences)
            - 84.6 * (total_syllables / total_words),
    [total_syllables] being the sum of [syllable_count] over the alphabetic
    tokens; the score computed from zero sentences or zero words is
    exactly 0. *)
Theorem flesch_reading_ease_formula
    (self : StyleAnalyzer) (text : string) (p : Profile) :
  analyze self text = Return p ->
  let total_words := List.length (words_of (nlp self text)) in
  let total_sentences := List.length (doc_sents (nlp self text)) in
  (exists counts,
      Forall2 (fun w n => syllable_count w = Return n)
              (words_of (nlp self text)) counts
      /\ flesch_reading_ease p
         = (206.835 - 1.015 * (INR total_words / INR total_sentences)
            - 84.6 * (IZR (Coll.Zsum counts) / INR total_words))%R)
  /\ (forall w s syl,
         0 < s -> 0 < w ->
         flesch_ease_of w s syl
         = (206.835 - 1.015 * (INR w / INR s)
            - 84.6 * (IZR syl / INR w))%R)
  /\ (forall w s syl,
         s = 0 \/ w = 0 -> flesch_ease_of w s syl = 0%R).
Proof.
  intros H. apply analyze_returns in H.
  destruct H as (_ & _ & Hs & Hw & syl & Hsyl & ->).
  cbn [flesch_reading_ease]. cbv zeta.
  apply truthy_length in Hs, Hw.
  split.
  - destruct (sum_syllables_each _ _ Hsyl) as [counts [Heach ->]].
    exists counts. split; [exact Heach|].
    apply flesch_ease_of_positive; assumption.
  - split; [apply flesch_ease_of_positive | apply flesch_ease_of_zero].
Qed.

Lemma flesch_reading_ease_formula_witness :
  exists p,
    analyze table_analyzer dogs_text = Return p
    /\ exists counts,
         Forall2 (fun w n => syllable_count w = Return n)
                 ["Dogs"; "run"; "Cats"; "run"; "fast"] counts
         /\ flesch_reading_ease p
            = (206.835 - 1.015 * (INR 5 / INR 2)
               - 84.6 * (IZR (Coll.Zsum counts) / INR 5))%R.
Proof.
  eexists. split; [reflexivity|].
  apply (flesch_reading_ease_formula table_analyzer dogs_text _ eq_refl).
Defined.

(** ** Distributions *)

Lemma punct_distribution_of_entries (doc : Doc) (mark : string) (v : R) :
  In (mark, v) (punct_distribution_of doc)
  <-> In mark (punct_texts doc)
      /\ v = (INR (count_occ string_dec (punct_texts doc) mark)
              / INR (List.length (punct_texts doc)))%R.
Proof.
  unfold punct_distribution_of, punct_counts_of. cbv zeta.
  rewrite Counter_total.
  destruct (Nat.ltb_spec 0 (List.length (punct_texts doc))) as [Hpos|Hz].
  - rewrite fractions_entries. split.
    + intros [n [Hin ->]]. apply Counter_entries in Hin.
      destruct Hin as [Hin ->]. split; [exact Hin | reflexivity].
    + intros [Hin ->]. eexists. split; [|reflexivity].
      apply Counter_entries. split; [exact Hin | reflexivity].
  - destruct (punct_texts doc); [|simpl in Hz; lia].
    simpl. tauto.
Qed.

Lemma punct_distribution_of_keys (doc : Doc) :
  NoDup (map fst (punct_distribution_of doc)).
Proof.
  unfold punct_distribution_of. cbv zeta.
  destruct (0 <? Coll.total (punct_counts_of doc))%nat; [|constructor].
  rewrite fractions_keys. apply Counter_NoDup.
Qed.

Lemma punct_distribution_of_sum (doc : Doc) :
  punct_texts doc <> [] ->
  Coll.Rsum (map snd (punct_distribution_of doc)) = 1%R.
Proof.
  intros Hne. unfold punct_distribution_of, punct_counts_of. cbv zeta.
  rewrite Counter_total.
  assert (Hpos : 0 < List.length (punct_texts doc))
    by (destruct (punct_texts doc); [congruence | simpl; lia]).
  destruct (Nat.ltb_spec 0 (List.length (punct_texts doc))); [|lia].
  rewrite Rsum_fractions, Counter_total.
  apply lt_0_INR in Hpos. unfold Rdiv. rewrite Rinv_r; lra.
Qed.

Lemma punct_distribution_of_empty (doc : Doc) :
  punct_texts doc = [] -> punct_distribution_of doc = [].
Proof.
  intros E. unfold punct_distribution_of, punct_counts_of. rewrite E.
  reflexivity.
Qed.

(** C7. For every analyzed text, [punctuation_distribution] maps the
    surface text of each punctuation token to its tally divided by the
    number of punctuation tokens; its values add up to 1 when there is a
    punctuation token, and it is the empty mapping, by the branch taken on
    a zero total, when there is none. *)
Theorem punctuation_distribution_normalised
    (self : StyleAnalyzer) (text : string) (p : Profile) :
  analyze self text = Return p ->
  let marks := punct_texts (nlp self text) in
  let dist := punctuation_distribution p in
  NoDup (map fst dist)
  /\ (forall mark v,
         In (mark, v) dist
         <-> In mark marks
             /\ v = (INR (count_occ string_dec marks mark)
                     / INR (List.length marks))%R)
  /\ (marks <> [] -> Coll.Rsum (map snd dist) = 1%R)
  /\ (marks = [] -> dist = []).
Proof.
  intros H. apply analyze_returns in H.
  destruct H as (_ & _ & _ & _ & syl & _ & ->).
  cbn [punctuation_distribution]. cbv zeta.
  split; [apply punct_distribution_of_keys|].
  split; [apply punct_distribution_of_entries|].
  split; [apply punct_distribution_of_sum | apply punct_distribution_of_empty].
Qed.

Lemma punctuation_distribution_normalised_witness :
  exists p,
    analyze table_analyzer dogs_text = Return p
    /\ In (".", (INR 1 / INR 2)%R) (punctuation_distribution p)
    /\ Coll.Rsum (map snd (punctuation_distribution p)) = 1%R.
Proof.
  eexists. split; [reflexivity|].
  pose proof (punctuation_distribution_normalised
                table_analyzer dogs_text _ eq_refl) as H.
  cbv zeta in H. destruct H as (_ & Hentries & Hsum & _).
  split.
  - apply Hentries. split; [cbv; in_list | reflexivity].
  - apply Hsum. discriminate.
Defined.

(** The values of [pos_distribution] add up to the number of tallied
    tokens over the number of alphabetic tokens. *)
Lemma pos_distribution_of_sum (doc : Doc) (total_words : nat) :
  0 < total_words ->
  Coll.Rsum (map snd (pos_distribution_of doc total_words))
  = (INR (List.length (content_tokens doc)) / INR total_words)%R.
Proof.
  intros Hpos. unfold pos_distribution_of, pos_counts_of.
  destruct (Nat.ltb_spec 0 total_words); [|lia].
  rewrite Rsum_fractions, Counter_total, length_map. reflexivity.
Qed.

Lemma pos_distribution_of_entries
    (doc : Doc) (total_words : nat) (pos : string) (v : R) :
  0 < total_words ->
  In (pos, v) (pos_distribution_of doc total_words)
  <-> In pos (map pos_ (content_tokens doc))
      /\ v = (INR (count_occ string_dec (map pos_ (content_tokens doc)) pos)
              / INR total_words)%R.
Proof.
  intros Hpos. unfold pos_distribution_of, pos_counts_of.
  destruct (Nat.ltb_spec 0 total_words); [|lia].
  rewrite fractions_entries. split.
  - intros [n [Hin ->]]. apply Counter_entries in Hin.
    destruct Hin as [Hin ->]. split; [exact Hin | reflexivity].
  - intros [Hin ->]. eexists. split; [|reflexivity].
    apply Counter_entries. split; [exact Hin | reflexivity].
Qed.

(** When the tallied tokens are exactly the alphabetic ones, the values of
    [pos_distribution] add up to 1. *)
Lemma pos_distribution_of_sum_one (doc : Doc) :
  (forall token,
      In token (doc_tokens doc) ->
      is_alpha token = negb (is_punct token) && negb (is_space token)) ->
  words_of doc <> [] ->
  Coll.Rsum (map snd (pos_distribution_of doc (List.length (words_of doc))))
  = 1%R.
Proof.
  intros Hsame Hne.
  assert (Hpos : 0 < List.length (words_of doc))
    by (destruct (words_of doc); [congruence | simpl; lia]).
  rewrite (pos_distribution_of_sum doc _ Hpos).
  unfold content_tokens.
  rewrite <- (filter_ext_in _ _ _ Hsame).
  unfold words_of in *. rewrite length_map in *.
  apply lt_0_INR in Hpos. unfold Rdiv. rewrite Rinv_r; lra.
Qed.

(** C1, on the code. For the text of [rooms_text], one alphabetic token
    followed by three numbers and a full stop, [analyze] returns a profile
    although [total_words] is positive and four tokens are neither
    punctuation nor whitespace; the fraction of the tag NUM is 3 and the
    values of [pos_distribution] add up to 4, not to 1: the tallies of all
    these tokens are divided by the number of alphabetic tokens. *)
Theorem pos_distribution_rooms :
  exists p,
    analyze table_analyzer rooms_text = Return p
    /\ List.length (words_of (nlp table_analyzer rooms_text)) = 1
    /\ List.length (content_tokens (nlp table_analyzer rooms_text)) = 4
    /\ pos_distribution p = [("NOUN", (INR 1 / INR 1)%R);
                             ("NUM", (INR 3 / INR 1)%R)]
    /\ (INR 3 / INR 1 = 3)%R
    /\ Coll.Rsum (map snd (pos_distribution p)) = 4%R
    /\ Coll.Rsum (map snd (pos_distribution p)) <> 1%R
    /\ ~ Forall (fun v => 0 <= v <= 1)%R (map snd (pos_distribution p)).
Proof.
  eexists. split; [reflexivity|].
  cbn [pos_distribution].
  split; [reflexivity|]. split; [reflexivity|]. split; [reflexivity|].
  assert (E3 : (INR 3 / INR 1 = 3)%R) by (simpl; lra).
  assert (E4 : Coll.Rsum
                 (map snd
                    (pos_distribution_of (nlp table_analyzer rooms_text)
                       (List.length (words_of (nlp table_analyzer rooms_text)))))
               = 4%R).
  { rewrite pos_distribution_of_sum by (simpl; lia). simpl. lra. }
  split; [exact E3|]. split; [exact E4|].
  split; [rewrite E4; lra|].
  intros HF.
  change (pos_distribution_of (nlp table_analyzer rooms_text)
            (List.length (words_of (nlp table_analyzer rooms_text))))
    with [("NOUN", (INR 1 / INR 1)%R); ("NUM", (INR 3 / INR 1)%R)] in HF.
  cbn [map snd] in HF.
  inversion HF as [|? ? _ HF']; subst.
  inversion HF' as [|? ? Hb _]; subst.
  cbn [snd] in Hb. simpl in Hb. lra.
Qed.

(** ** The success path *)

Lemma Counter_nonempty (l : list string) : l <> [] -> Coll.Counter l <> [].
Proof.
  intros Hne Hc. pose proof (Counter_total l) as Ht. rewrite Hc in Ht.
  destruct l; [congruence | discriminate].
Qed.

Lemma content_tokens_nonempty (doc : Doc) :
  alpha_tokens_are_content doc ->
  words_of doc <> [] -> content_tokens doc <> [].
Proof.
  unfold alpha_tokens_are_content, words_of, content_tokens.
  intros Hc Hne.
  destruct (filter is_alpha (doc_tokens doc)) as [|t ts] eqn:Ef;
    [contradiction|].
  assert (Hin : In t (filter is_alpha (doc_tokens doc)))
    by (rewrite Ef; left; reflexivity).
  apply filter_In in Hin. destruct Hin as [Hin Ha].
  rewrite Forall_forall in Hc. destruct (Hc t Hin Ha) as [Hp Hs].
  intros E.
  assert (Hin' : In t (filter
                         (fun token =>
                            negb (is_punct token) && negb (is_space token))
                         (doc_tokens doc))).
  { apply filter_In. split; [exact Hin|]. rewrite Hp, Hs. reflexivity. }
  rewrite E in Hin'. contradiction.
Qed.

(** C10. When [analyze] returns, [total_words] and [total_sentences] are
    positive, so the tests guarding the divisions of the type-token ratio
    and of the reading ease succeed and their zero branches are not taken;
    and, alphabetic tokens being neither punctuation nor whitespace,
    [pos_distribution] is not empty. *)
Theorem success_denominators_positive
    (self : StyleAnalyzer) (text : string) (p : Profile) :
  analyze self text = Return p ->
  let doc := nlp self text in
  let total_words := List.length (words_of doc) in
  let total_sentences := List.length (doc_sents doc) in
  0 < total_words
  /\ 0 < total_sentences
  /\ (0 <? total_words)%nat = true
  /\ ((0 <? total_sentences)%nat && (0 <? total_words)%nat) = true
  /\ (alpha_tokens_are_content doc -> pos_distribution p <> []).
Proof.
  intros H. apply analyze_returns in H.
  destruct H as (_ & _ & Hs & Hw & syl & _ & ->).
  cbn [pos_distribution]. cbv zeta.
  pose proof Hw as Hwne. apply truthy_nonempty in Hwne.
  apply truthy_length in Hs, Hw.
  assert (Ew : (0 <? List.length (words_of (nlp self text)))%nat = true)
    by (apply Nat.ltb_lt; exact Hw).
  assert (Es : (0 <? List.length (doc_sents (nlp self text)))%nat = true)
    by (apply Nat.ltb_lt; exact Hs).
  split; [exact Hw|]. split; [exact Hs|]. split; [exact Ew|].
  split; [rewrite Es, Ew; reflexivity|].
  intros Hc. unfold pos_distribution_of, pos_counts_of. rewrite Ew.
  intros E. apply map_eq_nil in E.
  apply (Counter_nonempty (map pos_ (content_tokens (nlp self text))));
    [|exact E].
  intros E'. apply map_eq_nil in E'.
  exact (content_tokens_nonempty _ Hc Hwne E').
Qed.

Lemma success_denominators_positive_witness :
  exists p,
    analyze table_analyzer dogs_text = Return p
    /\ alpha_tokens_are_content (nlp table_analyzer dogs_text)
    /\ 0 < List.length (words_of (nlp table_analyzer dogs_text))
    /\ 0 < List.length (doc_sents (nlp table_analyzer dogs_text))
    /\ pos_distribution p <> [].
Proof.
  eexists. split; [reflexivity|].
  assert (Hc : alpha_tokens_are_content (nlp table_analyzer dogs_text)).
  { unfold alpha_tokens_are_content.
    repeat (apply Forall_cons;
            [intros Ha; first [discriminate Ha | split; reflexivity]|]).
    apply Forall_nil. }
  pose proof (success_denominators_positive
                table_analyzer dogs_text _ eq_refl) as H.
  cbv zeta in H. destruct H as (Hw & Hs & _ & _ & Hpos).
  split; [exact Hc|]. split; [exact Hw|]. split; [exact Hs|].
  exact (Hpos Hc).
Defined.

(** ** Ranking the entries of a distribution *)

Section Ranking.

Context {A : Type}.
Variable key : A -> R.

Lemma insert_desc_perm (x : A) (l : list A) :
  Permutation (x :: l) (Coll.insert_desc key x l).
Proof.
  induction l as [|y l IH]; cbn [Coll.insert_desc]; [reflexivity|].
  destruct (Rle_dec (key y) (key x)); [reflexivity|].
  rewrite perm_swap. apply perm_skip, IH.
Qed.

Lemma sorted_reverse_perm (l : list A) :
  Permutation l (Coll.sorted_reverse key l).
Proof.
  induction l as [|x l IH]; cbn [Coll.sorted_reverse]; [reflexivity|].
  rewrite <- insert_desc_perm. apply perm_skip, IH.
Qed.

Lemma insert_desc_sorted (x : A) (l : list A) :
  StronglySorted (Coll.desc key) l -> StronglySorted (Coll.desc key) (Coll.insert_desc key x l).
Proof.
  induction 1 as [|y l Hs IH Hy]; cbn [Coll.insert_desc].
  - constructor; constructor.
  - destruct (Rle_dec (key y) (key x)) as [Hle|Hgt].
    + constructor; [constructor; assumption|].
      constructor; [exact Hle|].
      rewrite Forall_forall in *. intros z Hz.
      specialize (Hy z Hz). unfold Coll.desc in *. lra.
    + constructor; [exact IH|].
      apply (Permutation_Forall (insert_desc_perm x l)).
      constructor; [unfold Coll.desc; lra | exact Hy].
Qed.

Lemma sorted_reverse_sorted (l : list A) :
  StronglySorted (Coll.desc key) (Coll.sorted_reverse key l).
Proof.
  induction l as [|x l IH]; cbn [Coll.sorted_reverse]; [constructor|].
  apply insert_desc_sorted, IH.
Qed.

(** Inserting an entry moves it past entries of a strictly larger key
    only: the entries of any one key keep their order. *)
Lemma insert_desc_stable (v : R) (x : A) (l : list A) :
  Coll.with_key key v (Coll.insert_desc key x l)
  = Coll.with_key key v (x :: l).
Proof.
  unfold Coll.with_key.
  induction l as [|y l IH]; cbn [Coll.insert_desc]; [reflexivity|].
  destruct (Rle_dec (key y) (key x)) as [Hle|Hgt]; [reflexivity|].
  cbn [filter] in *. rewrite IH.
  destruct (Req_dec_T (key y) v), (Req_dec_T (key x) v);
    try reflexivity.
  exfalso. apply Hgt. lra.
Qed.

Lemma sorted_reverse_stable (v : R) (l : list A) :
  Coll.with_key key v (Coll.sorted_reverse key l) = Coll.with_key key v l.
Proof.
  induction l as [|x l IH]; cbn [Coll.sorted_reverse]; [reflexivity|].
  rewrite insert_desc_stable. unfold Coll.with_key in *.
  cbn [filter]. rewrite IH. reflexivity.
Qed.

Lemma sorted_reverse_ranked (l : list A) :
  Coll.ranked key l (Coll.sorted_reverse key l).
Proof.
  split; [apply sorted_reverse_perm|].
  split; [apply sorted_reverse_sorted | intros v; apply sorted_reverse_stable].
Qed.

Lemma sorted_app_leads (l1 l2 : list A) :
  StronglySorted (Coll.desc key) (l1 ++ l2) ->
  forall x y, In x l1 -> In y l2 -> Coll.desc key x y.
Proof.
  induction l1 as [|a l1 IH]; intros Hs x y Hx Hy; [contradiction|].
  cbn [app] in Hs. inversion Hs as [|? ? Hs' Ha]; subst.
  destruct Hx as [->|Hx].
  - rewrite Forall_forall in Ha. apply Ha, in_or_app. right. exact Hy.
  - apply IH; assumption.
Qed.

Lemma sorted_reverse_leads (k : nat) (l : list A) :
  Coll.leads key k (Coll.sorted_reverse key l).
Proof.
  unfold Coll.leads. apply sorted_app_leads.
  rewrite firstn_skipn. apply sorted_reverse_sorted.
Qed.

Lemma sorted_reverse_length (l : list A) :
  List.length (Coll.sorted_reverse key l) = List.length l.
Proof.
  symmetry. apply Permutation_length, sorted_reverse_perm.
Qed.

End Ranking.

(** ** The style guide *)

Section Guide.

Variable format_float : string -> R -> string.

Lemma append_assoc (a b c : string) : (a ++ b) ++ c = a ++ (b ++ c).
Proof. induction a as [|x a IH]; simpl; [reflexivity | rewrite IH; reflexivity]. Qed.

Lemma append_empty (a : string) : a ++ "" = a.
Proof. induction a as [|x a IH]; simpl; [reflexivity | rewrite IH; reflexivity]. Qed.

(** Appending one entry per item is appending the joined entries. *)
Lemma fold_entries
    (f : string -> string * R -> string) (entry : string * R -> string)
    (items : list (string * R)) :
  (forall prompt item, f prompt item = prompt ++ entry item) ->
  forall prompt,
    fold_left f items prompt = prompt ++ join (map entry items).
Proof.
  intros Hf.
  induction items as [|item items IH]; intros prompt;
    cbn [fold_left map join fold_right].
  - rewrite append_empty. reflexivity.
  - rewrite IH, Hf, append_assoc. reflexivity.
Qed.

Lemma format_sections
    (self : StyleAnalyzer) (analysis : Profile) (author_name : string) :
  format_analysis_for_prompt format_float self analysis author_name
  = guide_head format_float analysis author_name
    ++ grammar_title
    ++ join (map (grammar_entry format_float) (top_pos analysis))
    ++ punctuation_title
    ++ join (map (punctuation_entry format_float) (top_puncts analysis))
    ++ clarity_line format_float analysis.
Proof.
  unfold format_analysis_for_prompt. cbv zeta.
  rewrite (fold_entries _ (punctuation_entry format_float))
    by (intros prompt [p percent]; reflexivity).
  rewrite (fold_entries _ (grammar_entry format_float))
    by (intros prompt [pos percent]; reflexivity).
  unfold guide_head, grammar_title, punctuation_title, clarity_line.
  rewrite !append_assoc. reflexivity.
Qed.

End Guide.

(** C8. For every profile and author name, the Grammar section of the
    style guide lists the first 5 entries of [pos_distribution] ranked by
    descending fraction (all of them when there are fewer), and the
    Punctuation section the first 3 entries of [punctuation_distribution]
    ranked likewise; entries of equal fraction keep the insertion order of
    the mapping, and each entry is rendered with the format [.1%], a
    percentage with one decimal. *)
Theorem guide_lists_top_entries
    (format_float : string -> R -> string)
    (self : StyleAnalyzer) (analysis : Profile) (author_name : string) :
  let pos_ranked := Coll.sorted_reverse snd (pos_distribution analysis) in
  let punct_ranked :=
    Coll.sorted_reverse snd (punctuation_distribution analysis) in
  format_analysis_for_prompt format_float self analysis author_name
  = guide_head format_float analysis author_name
    ++ grammar_title
    ++ join (map (fun item =>
                    "  - " ++ fst item ++ ": ~"
                    ++ format_float ".1%" (snd item) ++ nl)
                 (firstn 5 pos_ranked))
    ++ punctuation_title
    ++ join (map (fun item =>
                    "  - The '" ++ fst item ++ "' character comprises ~"
                    ++ format_float ".1%" (snd item)
                    ++ " of all punctuation." ++ nl)
                 (firstn 3 punct_ranked))
    ++ clarity_line format_float analysis
  /\ Coll.ranked snd (pos_distribution analysis) pos_ranked
  /\ Coll.ranked snd (punctuation_distribution analysis) punct_ranked
  /\ Coll.leads snd 5 pos_ranked
  /\ Coll.leads snd 3 punct_ranked
  /\ List.length (firstn 5 pos_ranked)
     = Nat.min 5 (List.length (pos_distribution analysis))
  /\ List.length (firstn 3 punct_ranked)
     = Nat.min 3 (List.length (punctuation_distribution analysis)).
Proof.
  cbv zeta.
  split; [apply format_sections|].
  split; [apply sorted_reverse_ranked|].
  split; [apply sorted_reverse_ranked|].
  split; [apply sorted_reverse_leads|].
  split; [apply sorted_reverse_leads|].
  rewrite !length_firstn, !sorted_reverse_length. split; reflexivity.
Qed.

(** Two tags of equal fraction stay in the order of the mapping. *)
Example ranking_keeps_insertion_order :
  Coll.sorted_reverse snd
    [("NOUN", 0.25%R); ("VERB", 0.5%R); ("ADV", 0.25%R)]
  = [("VERB", 0.5%R); ("NOUN", 0.25%R); ("ADV", 0.25%R)].
Proof.
  cbn [Coll.sorted_reverse Coll.insert_desc snd].
  repeat match goal with
         | |- context [Rle_dec ?a ?b] =>
             destruct (Rle_dec a b); try lra;
             cbn [Coll.insert_desc snd]
         end.
  reflexivity.
Qed.

(** The variance reported for the worked example is not the sample
    variance of its sentence lengths. *)
Example variance_is_not_sample_variance :
  population_variance [INR 2; INR 3] <> sample_variance [INR 2; INR 3].
Proof. rewrite population_variance_2_3, sample_variance_2_3. lra. Qed.

(** * Further properties of the code *)

(** ** More on [syllable_count] *)




Lemma syllable_count_empty_word (word : string) (e : exn) :
  syllable_count word = Raise e ->
  word = "" /\ e = IndexError "string index out of range".
Proof.
  destruct word as [|c s].
  - cbv. intros H. inversion H. split; reflexivity.
  - rewrite syllable_count_refines by discriminate. discriminate.
Qed.

(** X2. [syllable_count] fails on the empty word only, and then with the
    [IndexError] of [word[0]]; on every other word it returns. *)
Theorem syllable_count_raises_iff_empty (word : string) :
  (raises (syllable_count word) <-> word = "")
  /\ (forall e,
         syllable_count word = Raise e ->
         e = IndexError "string index out of range").
Proof.
  split.
  - split.
    + intros [e He]. apply syllable_count_empty_word in He. tauto.
    + intros ->. eexists. reflexivity.
  - intros e He. apply syllable_count_empty_word in He. tauto.
Qed.

Lemma lower_char_idempotent (c : ascii) :
  Py.lower_char (Py.lower_char c) = Py.lower_char c.
Proof.
  destruct c as [[] [] [] [] [] [] [] []]; vm_compute; reflexivity.
Qed.

Lemma lower_idempotent (s : string) : Py.lower (Py.lower s) = Py.lower s.
Proof.
  induction s as [|c s IH]; cbn [Py.lower]; [reflexivity|].
  rewrite lower_char_idempotent, IH. reflexivity.
Qed.

(** X3. The count does not depend on the case of the word: two words with
    the same lower-case form have the same count, the one of that
    lower-case form itself. *)
Theorem syllable_count_case_insensitive (w1 w2 : string) :
  Py.lower w1 = Py.lower w2 ->
  syllable_count w1 = syllable_count w2
  /\ syllable_count (Py.lower w1) = syllable_count w2.
Proof.
  assert (H : forall a b,
             Py.lower a = Py.lower b -> syllable_count a = syllable_count b).
  { intros a b E. unfold syllable_count. rewrite E. reflexivity. }
  intros E. split; [apply H, E|].
  apply H. rewrite lower_idempotent. exact E.
Qed.

Lemma syllable_count_case_insensitive_witness :
  Py.lower "STYLE" = Py.lower "Style"
  /\ syllable_count "STYLE" = syllable_count "Style"
  /\ syllable_count (Py.lower "STYLE") = syllable_count "Style".
Proof.
  split; [reflexivity|].
  apply (syllable_count_case_insensitive "STYLE" "Style"). reflexivity.
Defined.

Example syllable_count_shouting :
  syllable_count "STYLE" = syllable_count "style".
Proof. reflexivity. Qed.

(** ** The errors of [analyze] *)





(** ** Bounds on the profile *)

Lemma Zsum_from (l : list Z) :
  forall a, fold_left Z.add l a = (a + fold_left Z.add l 0)%Z.
Proof.
  induction l as [|x l IH]; intros a; cbn [fold_left]; [lia|].
  rewrite (IH (a + x)%Z), (IH (0 + x)%Z). lia.
Qed.

Lemma Zsum_at_least_length (l : list Z) :
  Forall (fun n => (1 <= n)%Z) l ->
  (Z.of_nat (List.length l) <= Coll.Zsum l)%Z.
Proof.
  unfold Coll.Zsum.
  induction 1 as [|x l Hx _ IH]; cbn [fold_left List.length]; [lia|].
  rewrite Zsum_from. lia.
Qed.

Lemma counted_syllables_positive (words : list string) (counts : list Z) :
  Forall2 (fun w n => syllable_count w = Return n) words counts ->
  Forall (fun n => (1 <= n)%Z) counts
  /\ List.length counts = List.length words.
Proof.
  induction 1 as [|w n ws ns Hw _ [IH1 IH2]]; [split; [constructor|reflexivity]|].
  split; [|cbn [List.length]; congruence].
  constructor; [|exact IH1].
  destruct w as [|c s]; [discriminate Hw|].
  rewrite syllable_count_refines in Hw by discriminate.
  inversion Hw. apply syllable_estimate_pos.
Qed.

(** X5. Every word counting at least one syllable, the reading ease of an
    analyzed text is at most 122.235 less 1.015 times the words per
    sentence, hence below 122.235. *)
Theorem flesch_reading_ease_upper_bound
    (self : StyleAnalyzer) (input : string) (p : Profile) :
  analyze self input = Return p ->
  let total_words := List.length (words_of (nlp self input)) in
  let total_sentences := List.length (doc_sents (nlp self input)) in
  (flesch_reading_ease p
   <= 122.235 - 1.015 * (INR total_words / INR total_sentences))%R
  /\ (flesch_reading_ease p < 122.235)%R.
Proof.
  intros H. apply analyze_returns in H.
  destruct H as (_ & _ & Hs & Hw & syl & Hsyl & ->).
  cbn [flesch_reading_ease]. cbv zeta.
  apply truthy_length in Hs, Hw.
  rewrite flesch_ease_of_positive by assumption. unfold flesch_formula.
  destruct (sum_syllables_each _ _ Hsyl) as [counts [Heach ->]].
  destruct (counted_syllables_positive _ _ Heach) as [Hpos Hlen].
  apply Zsum_at_least_length in Hpos. rewrite Hlen in Hpos.
  apply IZR_le in Hpos. rewrite <- INR_IZR_INZ in Hpos.
  apply lt_0_INR in Hs, Hw.
  set (W := INR (List.length (words_of (nlp self input)))) in *.
  set (S := INR (List.length (doc_sents (nlp self input)))) in *.
  set (Y := IZR (Coll.Zsum counts)) in *.
  assert (Hq : (1 <= Y / W)%R).
  { apply (Rmult_le_reg_r W); [exact Hw|].
    unfold Rdiv. rewrite Rmult_assoc, Rinv_l; lra. }
  assert (Hr : (0 < W / S)%R).
  { apply Rmult_lt_0_compat; [exact Hw | apply Rinv_0_lt_compat, Hs]. }
  split; lra.
Qed.

Lemma flesch_reading_ease_upper_bound_witness :
  exists p,
    analyze table_analyzer dogs_text = Return p
    /\ (flesch_reading_ease p < 122.235)%R.
Proof.
  eexists. split; [reflexivity|].
  apply (flesch_reading_ease_upper_bound table_analyzer dogs_text _ eq_refl).
Defined.

(** ** Sentences that partition the tokens *)

Lemma Rsum_INR (l : list nat) :
  Coll.Rsum (map INR l) = INR (list_sum l).
Proof.
  unfold Coll.Rsum. induction l as [|x l IH]; cbn [map fold_right list_sum].
  - reflexivity.
  - rewrite IH, plus_INR. reflexivity.
Qed.

Lemma filter_concat_length {A : Type} (f : A -> bool) (ls : list (list A)) :
  List.length (filter f (List.concat ls))
  = list_sum (map (fun l => List.length (filter f l)) ls).
Proof.
  induction ls as [|l ls IH]; cbn [List.concat map list_sum]; [reflexivity|].
  rewrite filter_app, length_app, IH. reflexivity.
Qed.

(** X6. When the sentences partition the tokens of the document, as the
    spans of [doc.sents] do, [avg_sentence_length] is [total_words] over
    [total_sentences], the very ratio that enters the reading ease. *)
Theorem avg_sentence_length_is_words_per_sentence
    (self : StyleAnalyzer) (input : string) (p : Profile) :
  analyze self input = Return p ->
  List.concat (doc_sents (nlp self input)) = doc_tokens (nlp self input) ->
  let total_words := List.length (words_of (nlp self input)) in
  let total_sentences := List.length (doc_sents (nlp self input)) in
  avg_sentence_length p = (INR total_words / INR total_sentences)%R
  /\ exists total_syllables,
       sum_syllables (words_of (nlp self input)) = Return total_syllables
       /\ flesch_reading_ease p
          = (206.835 - 1.015 * avg_sentence_length p
             - 84.6 * (IZR total_syllables / INR total_words))%R.
Proof.
  intros H Hpart. apply analyze_returns in H.
  destruct H as (_ & _ & Hs & Hw & syl & Hsyl & ->).
  cbn [avg_sentence_length flesch_reading_ease]. cbv zeta.
  apply truthy_length in Hs, Hw.
  assert (Havg : Np.mean (map INR (sentence_lengths_of
                                     (doc_sents (nlp self input))))
                 = (INR (List.length (words_of (nlp self input)))
                    / INR (List.length (doc_sents (nlp self input))))%R).
  { unfold Np.mean. rewrite Rsum_INR, length_map.
    unfold sentence_lengths_of. rewrite length_map.
    rewrite <- filter_concat_length, Hpart.
    unfold words_of. rewrite length_map. reflexivity. }
  split; [exact Havg|].
  exists syl. split; [exact Hsyl|].
  rewrite Havg. apply flesch_ease_of_positive; assumption.
Qed.

Lemma avg_sentence_length_is_words_per_sentence_witness :
  exists p,
    analyze table_analyzer dogs_text = Return p
    /\ List.concat (doc_sents (nlp table_analyzer dogs_text))
       = doc_tokens (nlp table_analyzer dogs_text)
    /\ avg_sentence_length p = (INR 5 / INR 2)%R.
Proof.
  eexists. split; [reflexivity|]. split; [reflexivity|].
  apply (avg_sentence_length_is_words_per_sentence
           table_analyzer dogs_text _ eq_refl eq_refl).
Defined.

(** ** Sentence lengths *)

Lemma Rsum_constant (x : R) (l : list R) :
  Forall (fun y => y = x) l -> Coll.Rsum l = (INR (List.length l) * x)%R.
Proof.
  unfold Coll.Rsum.
  induction 1 as [|y l Hy _ IH]; cbn [fold_right List.length].
  - simpl. lra.
  - rewrite IH, S_INR, Hy. lra.
Qed.

Lemma mean_constant (x : R) (l : list R) :
  l <> [] -> Forall (fun y => y = x) l -> arithmetic_mean l = x.
Proof.
  intros Hne Hall. unfold arithmetic_mean. rewrite (Rsum_constant x l Hall).
  assert (0 < INR (List.length l))%R
    by (apply lt_0_INR; destruct l; [congruence | simpl; lia]).
  unfold Rdiv. rewrite Rmult_comm, <- Rmult_assoc, Rinv_l; lra.
Qed.

Lemma population_variance_nonneg (l : list R) :
  (0 <= population_variance l)%R.
Proof.
  rewrite <- std_squared. apply pow2_ge_0.
Qed.

Lemma population_variance_constant (x : R) (l : list R) :
  l <> [] -> Forall (fun y => y = x) l -> population_variance l = 0%R.
Proof.
  intros Hne Hall. unfold population_variance. cbv zeta.
  rewrite (mean_constant x l Hne Hall).
  rewrite (Rsum_constant 0%R).
  - unfold Rdiv. lra.
  - rewrite Forall_map. eapply Forall_impl; [|exact Hall].
    intros y ->. cbv beta. lra.
Qed.

(** X7. The average sentence length and the variance of an analyzed text
    are never negative; when every sentence has the same number [k] of
    alphabetic tokens, a single sentence in particular, the average is [k]
    and the variance is 0. *)
Theorem sentence_statistics_range
    (self : StyleAnalyzer) (input : string) (p : Profile) :
  analyze self input = Return p ->
  (0 <= avg_sentence_length p)%R
  /\ (0 <= sentence_length_variance p)%R
  /\ (forall k,
         Forall (fun sent => List.length (filter is_alpha sent) = k)
                (doc_sents (nlp self input)) ->
         avg_sentence_length p = INR k
         /\ sentence_length_variance p = 0%R).
Proof.
  intros H.
  destruct (sentence_statistics self input p H) as [Hvar Havg].
  cbv zeta in Hvar, Havg.
  rewrite std_squared in Hvar. rewrite mean_is_arithmetic_mean in Havg.
  apply analyze_returns in H. destruct H as (_ & _ & Hs & _).
  apply truthy_nonempty in Hs.
  split.
  { rewrite Havg, <- mean_is_arithmetic_mean. apply mean_nonneg.
    rewrite Forall_map, Forall_forall. intros s _. apply pos_INR. }
  split; [rewrite Hvar; apply population_variance_nonneg|].
  intros k Hk.
  assert (Hall : Forall (fun y => y = INR k)
                   (map (fun sent => INR (List.length (filter is_alpha sent)))
                        (doc_sents (nlp self input)))).
  { rewrite Forall_map. eapply Forall_impl; [|exact Hk].
    intros s ->. reflexivity. }
  assert (Hne : map (fun sent => INR (List.length (filter is_alpha sent)))
                    (doc_sents (nlp self input)) <> []).
  { intros E. apply map_eq_nil in E. contradiction. }
  rewrite Havg, Hvar.
  split; [apply mean_constant | apply (population_variance_constant (INR k))];
    assumption.
Qed.

Lemma sentence_statistics_range_witness :
  exists p,
    analyze table_analyzer rooms_text = Return p
    /\ avg_sentence_length p = INR 1
    /\ sentence_length_variance p = 0%R.
Proof.
  eexists. split; [reflexivity|].
  apply (sentence_statistics_range table_analyzer rooms_text _ eq_refl).
  repeat constructor.
Defined.

(** ** Repeated words *)

Lemma set_length_NoDup (l : list string) :
  List.length (Coll.set l) = List.length l <-> NoDup l.
Proof.
  unfold Coll.set. split.
  - induction l as [|x l IH]; cbn [nodup List.length]; [constructor|].
    pose proof (set_length_le l) as Hle. unfold Coll.set in Hle.
    destruct (in_dec string_dec x l) as [Hin|Hnin]; cbn [List.length].
    + lia.
    + intros E. constructor; [exact Hnin | apply IH; lia].
  - intros Hnd. rewrite nodup_fixed_point by exact Hnd. reflexivity.
Qed.

(** X8. The type-token ratio of an analyzed text is positive, and it is 1
    exactly when no alphabetic token repeats the exact surface form of
    another. *)
Theorem type_token_ratio_one_iff_no_repeat
    (self : StyleAnalyzer) (input : string) (p : Profile) :
  analyze self input = Return p ->
  (0 < type_token_ratio p)%R
  /\ (type_token_ratio p = 1%R <-> NoDup (words_of (nlp self input))).
Proof.
  intros H. apply analyze_returns in H.
  destruct H as (_ & _ & _ & Hw & syl & _ & ->).
  cbn [type_token_ratio].
  pose proof Hw as Hne. apply truthy_nonempty in Hne.
  apply truthy_length in Hw. rewrite (ttr_of_words _ Hw).
  set (ws := words_of (nlp self input)) in *.
  assert (HW : (0 < INR (List.length ws))%R) by (apply lt_0_INR, Hw).
  assert (Hset : 0 < List.length (Coll.set ws)).
  { destruct ws as [|w ws']; [congruence|].
    assert (Hin : In w (Coll.set (w :: ws')))
      by (apply set_distinct; left; reflexivity).
    destruct (Coll.set (w :: ws')); [contradiction | simpl; lia]. }
  split.
  - apply Rmult_lt_0_compat; [apply lt_0_INR, Hset|].
    apply Rinv_0_lt_compat, HW.
  - rewrite <- set_length_NoDup. split.
    + intros E. apply INR_eq.
      apply (Rmult_eq_compat_r (INR (List.length ws))) in E.
      unfold Rdiv in E. rewrite Rmult_assoc, Rinv_l in E; lra.
    + intros ->. unfold Rdiv. rewrite Rinv_r; lra.
Qed.

Lemma type_token_ratio_one_iff_no_repeat_witness :
  exists p,
    analyze table_analyzer rooms_text = Return p
    /\ (0 < type_token_ratio p)%R
    /\ type_token_ratio p = 1%R.
Proof.
  eexists. split; [reflexivity|].
  pose proof (type_token_ratio_one_iff_no_repeat
                table_analyzer rooms_text _ eq_refl) as [Hpos Hiff].
  split; [exact Hpos|]. apply Hiff. repeat constructor. intros [].
Defined.

(** ** The two distributions *)

Lemma filter_length_all {A : Type} (f : A -> bool) (l : list A) :
  List.length (filter f l) <= List.length l
  /\ (List.length (filter f l) = List.length l
      <-> Forall (fun x => f x = true) l).
Proof.
  induction l as [|x l [IHle IHeq]]; cbn [filter List.length].
  - split; [lia|]. split; [constructor | reflexivity].
  - destruct (f x) eqn:Ef; cbn [List.length].
    + split; [lia|]. split.
      * intros E. constructor; [exact Ef | apply IHeq; lia].
      * intros HF. inversion HF; subst. f_equal. apply IHeq. assumption.
    + split; [lia|]. split; [lia|].
      intros HF. inversion HF; subst. congruence.
Qed.

Lemma alpha_among_content (doc : Doc) :
  alpha_tokens_are_content doc ->
  filter is_alpha (content_tokens doc) = filter is_alpha (doc_tokens doc).
Proof.
  unfold alpha_tokens_are_content, content_tokens.
  induction 1 as [|t ts Ht _ IH]; cbn [filter]; [reflexivity|].
  destruct (is_alpha t) eqn:Ea.
  - destruct (Ht eq_refl) as [-> ->]. cbn [negb andb filter].
    rewrite Ea, IH. reflexivity.
  - destruct (negb (is_punct t) && negb (is_space t)); cbn [filter];
      rewrite ?Ea; exact IH.
Qed.

Lemma fractions_positive (c : Coll.counter) (d : nat) :
  0 < d -> Coll.positive_tallies c ->
  Forall (fun v => (0 < v)%R)
         (map snd (map (fun '(k, n) => (k, (INR n / INR d)%R)) c)).
Proof.
  intros Hd Hc. rewrite !Forall_map.
  eapply Forall_impl; [|exact Hc].
  intros [k n] Hn. cbn [snd] in *.
  apply Rmult_lt_0_compat; [apply lt_0_INR, Hn|].
  apply Rinv_0_lt_compat, lt_0_INR, Hd.
Qed.

(** X9. In the profile of an analyzed text, [pos_distribution] has one
    positive fraction per tag and its fractions add up to the number of
    tokens that are neither punctuation nor whitespace over the number of
    alphabetic tokens. With alphabetic tokens that are neither punctuation
    nor whitespace the total is at least 1, and it is 1 exactly when every
    tallied token is alphabetic. *)
Theorem pos_distribution_total
    (self : StyleAnalyzer) (input : string) (p : Profile) :
  analyze self input = Return p ->
  let doc := nlp self input in
  let total := Coll.Rsum (map snd (pos_distribution p)) in
  NoDup (map fst (pos_distribution p))
  /\ Forall (fun v => (0 < v)%R) (map snd (pos_distribution p))
  /\ total = (INR (List.length (content_tokens doc))
              / INR (List.length (words_of doc)))%R
  /\ (alpha_tokens_are_content doc ->
      (1 <= total)%R
      /\ (total = 1%R
          <-> Forall (fun token => is_alpha token = true)
                     (content_tokens doc))).
Proof.
  intros H. apply analyze_returns in H.
  destruct H as (_ & _ & _ & Hw & syl & _ & ->).
  cbn [pos_distribution]. cbv zeta. apply truthy_length in Hw.
  pose proof (pos_distribution_of_sum (nlp self input) _ Hw) as Hsum.
  split.
  { unfold pos_distribution_of, pos_counts_of.
    destruct (Nat.ltb_spec 0 (List.length (words_of (nlp self input))));
      [|lia].
    rewrite fractions_keys. apply Counter_NoDup. }
  split.
  { unfold pos_distribution_of, pos_counts_of.
    destruct (Nat.ltb_spec 0 (List.length (words_of (nlp self input))));
      [|lia].
    apply fractions_positive; [exact Hw | apply Counter_positive]. }
  split; [exact Hsum|].
  intros Hc. rewrite Hsum.
  pose proof (alpha_among_content _ Hc) as Hf.
  destruct (filter_length_all is_alpha (content_tokens (nlp self input)))
    as [Hle Heq].
  rewrite Hf in Hle, Heq.
  unfold words_of in *. rewrite length_map in *.
  set (W := List.length (filter is_alpha (doc_tokens (nlp self input)))) in *.
  set (C := List.length (content_tokens (nlp self input))) in *.
  assert (HW : (0 < INR W)%R) by (apply lt_0_INR, Hw).
  apply le_INR in Hle.
  split.
  - apply (Rmult_le_reg_r (INR W)); [exact HW|].
    unfold Rdiv. rewrite Rmult_assoc, Rinv_l; lra.
  - rewrite <- Heq. split.
    + intros E. symmetry. apply INR_eq.
      apply (Rmult_eq_compat_r (INR W)) in E.
      unfold Rdiv in E. rewrite Rmult_assoc, Rinv_l in E; lra.
    + intros ->. unfold Rdiv. rewrite Rinv_r; lra.
Qed.

Lemma pos_distribution_total_witness :
  exists p,
    analyze table_analyzer dogs_text = Return p
    /\ alpha_tokens_are_content (nlp table_analyzer dogs_text)
    /\ Coll.Rsum (map snd (pos_distribution p)) = 1%R.
Proof.
  eexists. split; [reflexivity|].
  assert (Hc : alpha_tokens_are_content (nlp table_analyzer dogs_text)).
  { unfold alpha_tokens_are_content.
    repeat (apply Forall_cons;
            [intros Ha; first [discriminate Ha | split; reflexivity]|]).
    apply Forall_nil. }
  split; [exact Hc|].
  pose proof (pos_distribution_total table_analyzer dogs_text _ eq_refl) as H.
  cbv zeta in H. destruct H as (_ & _ & _ & H).
  destruct (H Hc) as [_ Hiff]. apply Hiff. repeat constructor.
Defined.

(** X10. Every fraction of [punctuation_distribution] is positive and at
    most 1. *)
Theorem punctuation_fractions_range
    (self : StyleAnalyzer) (input : string) (p : Profile) :
  analyze self input = Return p ->
  Forall (fun v => (0 < v <= 1)%R) (map snd (punctuation_distribution p)).
Proof.
  intros H. apply analyze_returns in H.
  destruct H as (_ & _ & _ & _ & syl & _ & ->).
  cbn [punctuation_distribution].
  rewrite Forall_map, Forall_forall. intros [mark v] Hin. cbn [snd].
  apply punct_distribution_of_entries in Hin. destruct Hin as [Hin ->].
  set (marks := punct_texts (nlp self input)) in *.
  pose proof (proj1 (count_occ_In string_dec marks mark) Hin) as Hpos.
  pose proof (count_occ_bound string_dec mark marks) as Hle.
  assert (HL : (0 < INR (List.length marks))%R)
    by (apply lt_0_INR; lia).
  apply lt_0_INR in Hpos. apply le_INR in Hle.
  split.
  - apply Rmult_lt_0_compat; [exact Hpos | apply Rinv_0_lt_compat, HL].
  - apply (Rmult_le_reg_r (INR (List.length marks))); [exact HL|].
    unfold Rdiv. rewrite Rmult_assoc, Rinv_l; lra.
Qed.

Lemma punctuation_fractions_range_witness :
  exists p,
    analyze table_analyzer dogs_text = Return p
    /\ Forall (fun v => (0 < v <= 1)%R)
              (map snd (punctuation_distribution p)).
Proof.
  eexists. split; [reflexivity|].
  apply (punctuation_fractions_range table_analyzer dogs_text _ eq_refl).
Defined.

(** ** The guide of an analyzed text *)

Lemma Counter_keys (l : list string) (k : string) :
  In k (map fst (Coll.Counter l)) <-> In k l.
Proof.
  rewrite in_map_iff. split.
  - intros [[k' n] [E Hin]]. cbn [fst] in E. subst k'.
    apply Counter_entries in Hin. tauto.
  - intros Hin. exists (k, count_occ string_dec l k). split; [reflexivity|].
    apply Counter_entries. split; [exact Hin | reflexivity].
Qed.

(** A counter has one entry per distinct key. *)
Lemma Counter_length (l : list string) :
  List.length (Coll.Counter l) = List.length (Coll.set l).
Proof.
  rewrite <- (length_map fst). apply Permutation_length.
  apply NoDup_Permutation; [apply Counter_NoDup | apply set_distinct|].
  intros k. rewrite Counter_keys. symmetry. apply set_distinct.
Qed.

Lemma pos_distribution_of_length (doc : Doc) (total_words : nat) :
  0 < total_words ->
  List.length (pos_distribution_of doc total_words)
  = List.length (Coll.set (map pos_ (content_tokens doc))).
Proof.
  intros H. unfold pos_distribution_of, pos_counts_of.
  destruct (Nat.ltb_spec 0 total_words); [|lia].
  rewrite length_map. apply Counter_length.
Qed.

Lemma punct_distribution_of_length (doc : Doc) :
  List.length (punct_distribution_of doc)
  = List.length (Coll.set (punct_texts doc)).
Proof.
  unfold punct_distribution_of, punct_counts_of. cbv zeta.
  rewrite Counter_total.
  destruct (Nat.ltb_spec 0 (List.length (punct_texts doc))) as [H|H].
  - rewrite length_map. apply Counter_length.
  - destruct (punct_texts doc); [reflexivity | simpl in H; lia].
Qed.

(** X11. In the guide formatted from the profile of an analyzed text, the
    Grammar section has one entry per distinct tag of the tokens that are
    neither punctuation nor whitespace, up to 5, and the Punctuation
    section one entry per distinct punctuation mark, up to 3; for a text
    without punctuation tokens the Punctuation title is followed directly
    by the Clarity line. *)
Theorem guide_of_analysis_entries
    (format_float : string -> R -> string)
    (self : StyleAnalyzer) (input author_name : string) (p : Profile) :
  analyze self input = Return p ->
  let doc := nlp self input in
  format_analysis_for_prompt format_float self p author_name
  = guide_head format_float p author_name
    ++ grammar_title
    ++ join (map (grammar_entry format_float) (top_pos p))
    ++ punctuation_title
    ++ join (map (punctuation_entry format_float) (top_puncts p))
    ++ clarity_line format_float p
  /\ List.length (top_pos p)
     = Nat.min 5 (List.length (Coll.set (map pos_ (content_tokens doc))))
  /\ List.length (top_puncts p)
     = Nat.min 3 (List.length (Coll.set (punct_texts doc)))
  /\ (punct_texts doc = [] ->
      format_analysis_for_prompt format_float self p author_name
      = guide_head format_float p author_name
        ++ grammar_title
        ++ join (map (grammar_entry format_float) (top_pos p))
        ++ punctuation_title
        ++ clarity_line format_float p).
Proof.
  intros H. cbv zeta.
  split; [apply format_sections|].
  apply analyze_returns in H.
  destruct H as (_ & _ & _ & Hw & syl & _ & Ep).
  apply truthy_length in Hw.
  assert (Hpos : List.length (top_pos p)
                 = Nat.min 5 (List.length
                                (Coll.set (map pos_ (content_tokens
                                                       (nlp self input)))))).
  { unfold top_pos. rewrite length_firstn, sorted_reverse_length, Ep.
    cbn [pos_distribution]. rewrite pos_distribution_of_length by exact Hw.
    reflexivity. }
  assert (Hpunct : List.length (top_puncts p)
                   = Nat.min 3 (List.length
                                  (Coll.set (punct_texts (nlp self input))))).
  { unfold top_puncts. rewrite length_firstn, sorted_reverse_length, Ep.
    cbn [punctuation_distribution]. rewrite punct_distribution_of_length.
    reflexivity. }
  split; [exact Hpos|]. split; [exact Hpunct|].
  intros Hnone. rewrite format_sections.
  rewrite Hnone in Hpunct.
  change (List.length (top_puncts p) = 0) in Hpunct. revert Hpunct.
  destruct (top_puncts p); [reflexivity | intros E; discriminate E].
Qed.

Lemma guide_of_analysis_entries_witness :
  exists p,
    analyze table_analyzer dogs_text = Return p
    /\ List.length (top_pos p) = 3
    /\ List.length (top_puncts p) = 2.
Proof.
  eexists. split; [reflexivity|].
  pose proof (guide_of_analysis_entries
                (fun _ _ => "") table_analyzer dogs_text "Author" _ eq_refl)
    as H.
  cbv zeta in H. destruct H as (_ & Hpos & Hpunct & _).
  split; [exact Hpos | exact Hpunct].
Defined.

(** ** The process: what a run does to the files and the backend *)


Lemma fs_write_other (path other data : string) (fs : list (string * string)) :
  other <> path ->
  fs_lookup other (fs_write path data fs) = fs_lookup other fs.
Proof.
  intros Hne. induction fs as [|[p c] fs IH]; cbn [fs_write fs_lookup].
  - destruct (String.eqb_spec other path); [contradiction | reflexivity].
  - destruct (String.eqb_spec path p) as [->|Hp]; cbn [fs_lookup].
    + destruct (String.eqb_spec other p); [contradiction | reflexivity].
    + rewrite IH. reflexivity.
Qed.


Lemma table_analysis :
  exists p, analyze (mkStyleAnalyzer table_nlp) dogs_text = Return p.
Proof. eexists. reflexivity. Qed.







(** The run of [main] when the analysis raises a [ValueError]. *)
Lemma main_analysis_error
    (env : Env) (args : Args) (w : World)
    (source_text style_ref_text msg : string) (pipeline : string -> Doc) :
  fs_lookup (arg_source args) (files w) = Some source_text ->
  fs_lookup (arg_style_ref args) (files w) = Some style_ref_text ->
  spacy_load env "en_core_web_sm" = Some pipeline ->
  analyze (mkStyleAnalyzer pipeline) style_ref_text = Raise (ValueError msg) ->
  main env args w
  = (Exit 1,
     mkWorld (files w)
             (stdout w
              ++ ["Analyzing the style of " ++ arg_author args ++ " from '"
                  ++ arg_style_ref args ++ "'...";
                  "Error during analysis: " ++ msg])
             (requests w)).
Proof.
  intros Hsrc Href Hpipe Hana.
  run_process. rewrite Hsrc, Href, Hpipe.
  cbn [fst snd files stdout requests]. rewrite Hana.
  cbn [fst snd files stdout requests failure_text].
  f_equal. f_equal. rewrite <- !app_assoc. reflexivity.
Qed.

(** X15. A style reference that the analyzer rejects ends the run with
    status 1 after the line [Error during analysis:] and the message of the
    [ValueError]; with a pipeline that keeps its text, a style reference
    that is empty or blank is such a file, whatever the source text and the
    backend. Nothing is sent or written. *)
Theorem main_insufficient_reference
    (env : Env) (args : Args) (w : World)
    (source_text style_ref_text : string) (pipeline : string -> Doc) :
  let failed msg :=
    (Exit 1 : outcome unit,
     mkWorld (files w)
             (stdout w
              ++ ["Analyzing the style of " ++ arg_author args ++ " from '"
                  ++ arg_style_ref args ++ "'...";
                  "Error during analysis: " ++ msg])
             (requests w)) in
  fs_lookup (arg_source args) (files w) = Some source_text ->
  fs_lookup (arg_style_ref args) (files w) = Some style_ref_text ->
  spacy_load env "en_core_web_sm" = Some pipeline ->
  (forall msg,
      analyze (mkStyleAnalyzer pipeline) style_ref_text
      = Raise (ValueError msg) ->
      main env args w = failed msg)
  /\ (doc_text (pipeline style_ref_text) = style_ref_text ->
      Py.len (Py.strip style_ref_text) = 0 ->
      main env args w = failed empty_input_message).
Proof.
  cbv zeta. intros Hsrc Href Hpipe. split.
  - intros msg Hana.
    apply (main_analysis_error env args w source_text style_ref_text msg
             pipeline Hsrc Href Hpipe Hana).
  - intros Htext Hblank.
    apply (main_analysis_error env args w source_text style_ref_text
             empty_input_message pipeline Hsrc Href Hpipe).
    unfold analyze. cbn [nlp]. rewrite Htext, Hblank, orb_true_r.
    reflexivity.
Qed.

Lemma main_insufficient_reference_witness :
  main table_env (default_args "source.txt" "blank.txt" "Hemingway")
       (mkWorld [("source.txt", "The dogs were running.");
                 ("blank.txt", "   ")] [] [])
  = (Exit 1,
     mkWorld [("source.txt", "The dogs were running."); ("blank.txt", "   ")]
             ["Analyzing the style of Hemingway from 'blank.txt'...";
              "Error during analysis: Input text is empty or contains only whitespace."]
             []).
Proof.
  eapply (main_insufficient_reference
            table_env (default_args "source.txt" "blank.txt" "Hemingway")
            (mkWorld [("source.txt", "The dogs were running.");
                      ("blank.txt", "   ")] [] []));
    reflexivity.
Defined.



(** ** [StyleTransfer.rewrite] *)

(** X17. [rewrite] sends one request, made of the system prompt and of the
    user prompt in this order, for the model and host of the transfer. When
    the backend answers, it returns the content of the response unchanged,
    between its two progress lines; when the backend raises, the exception
    leaves [rewrite] after the first line only. It touches no file. *)
Theorem rewrite_sends_two_messages
    (env : Env) (self : StyleTransfer)
    (source_text style_guide author_name : string) (w : World) :
  let request :=
    mkChatRequest (transfer_host self) (transfer_model self)
      [mkMessage "system" system_prompt;
       mkMessage "user" (user_prompt source_text style_guide author_name)] in
  (forall response,
      client_chat env request = inl response ->
      rewrite env self source_text style_guide author_name w
      = (Done (content (message response)),
         mkWorld (files w)
                 (stdout w ++ [nl ++ "--- Sending request to LLM... ---";
                               "--- Received response. ---"])
                 (requests w ++ [request])))
  /\ (forall msg,
         client_chat env request = inr msg ->
         rewrite env self source_text style_guide author_name w
         = (Uncaught (ClientError msg),
            mkWorld (files w)
                    (stdout w ++ [nl ++ "--- Sending request to LLM... ---"])
                    (requests w ++ [request]))).
Proof.
  cbv zeta. split.
  - intros response H. run_process. rewrite H.
    cbn [fst snd files stdout requests].
    f_equal. f_equal. rewrite <- !app_assoc. reflexivity.
  - intros msg H. run_process. rewrite H. reflexivity.
Qed.

Lemma rewrite_sends_two_messages_witness :
  rewrite table_env (mkStyleTransfer "llama3" None)
          "The dogs were running." "GUIDE" "Hemingway" table_world
  = (Done "Dogs ran. Cats ran faster!",
     mkWorld (files table_world)
             [nl ++ "--- Sending request to LLM... ---";
              "--- Received response. ---"]
             [mkChatRequest None "llama3"
                [mkMessage "system" system_prompt;
                 mkMessage "user"
                   (user_prompt "The dogs were running." "GUIDE"
                                "Hemingway")]]).
Proof.
  pose proof (rewrite_sends_two_messages
                table_env (mkStyleTransfer "llama3" None)
                "The dogs were running." "GUIDE" "Hemingway" table_world)
    as H.
  cbv zeta in H. destruct H as [H _].
  apply (H (mkChatResponse
              (mkMessage "assistant" "Dogs ran. Cats ran faster!"))).
  reflexivity.
Defined.

Lemma append_length (a b : string) :
  String.length (a ++ b) = String.length a + String.length b.
Proof. induction a as [|c a IH]; simpl; [reflexivity | rewrite IH; reflexivity]. Qed.

Lemma append_cancel_l (a x y : string) : a ++ x = a ++ y -> x = y.
Proof.
  induction a as [|c a IH]; simpl; intros H; [exact H|].
  inversion H. apply IH. assumption.
Qed.

Lemma append_cancel_r (t : string) :
  forall x y, x ++ t = y ++ t -> x = y.
Proof.
  induction x as [|c x IH]; intros y H.
  - destruct y as [|d y]; [reflexivity|].
    apply (f_equal String.length) in H.
    rewrite !append_length in H. simpl in H. lia.
  - destruct y as [|d y].
    + apply (f_equal String.length) in H.
      rewrite !append_length in H. simpl in H. lia.
    + simpl in H. inversion H. f_equal. apply IH. assumption.
Qed.

(** X18. The user prompt carries the source text unambiguously: for one
    style guide and one author, two source texts with the same user prompt
    are the same text. *)
Theorem user_prompt_determines_source
    (style_guide author_name source1 source2 : string) :
  user_prompt source1 style_guide author_name
  = user_prompt source2 style_guide author_name ->
  source1 = source2.
Proof.
  unfold user_prompt. intros H.
  do 16 (apply append_cancel_l in H).
  apply append_cancel_r in H. exact H.
Qed.

Lemma user_prompt_determines_source_witness :
  user_prompt "Dogs run." "GUIDE" "Hemingway"
  = user_prompt "Dogs run." "GUIDE" "Hemingway"
  /\ "Dogs run." = "Dogs run.".
Proof.
  split; [reflexivity|].
  apply (user_prompt_determines_source "GUIDE" "Hemingway").
  reflexivity.
Defined.

(** X19. When the backend raises during the chat call, nothing in [main]
    catches the exception: the run stops with it after the line announcing
    the request, the request having been sent, and the output file is not
    written. *)
Theorem main_generation_failure
    (env : Env) (args : Args) (w : World)
    (source_text style_ref_text msg : string) (pipeline : string -> Doc)
    (p : Profile) :
  let analyzer := mkStyleAnalyzer pipeline in
  let style_guide :=
    format_analysis_for_prompt (py_format env) analyzer p (arg_author args) in
  let request :=
    mkChatRequest (arg_ollama_host args) (arg_model args)
      [mkMessage "system" system_prompt;
       mkMessage "user"
         (user_prompt source_text style_guide (arg_author args))] in
  fs_lookup (arg_source args) (files w) = Some source_text ->
  fs_lookup (arg_style_ref args) (files w) = Some style_ref_text ->
  spacy_load env "en_core_web_sm" = Some pipeline ->
  analyze analyzer style_ref_text = Return p ->
  client_list env (arg_ollama_host args) = None ->
  client_chat env request = inr msg ->
  main env args w
  = (Uncaught (ClientError msg),
     mkWorld
       (files w)
       (stdout w
        ++ ["Analyzing the style of " ++ arg_author args ++ " from '"
            ++ arg_style_ref args ++ "'...";
            nl ++ "--- Generated Style Guide ---";
            style_guide;
            "---------------------------";
            nl ++ "--- Sending request to LLM... ---"])
       (requests w ++ [request])).
Proof.
  cbv zeta. intros Hsrc Href Hpipe Hana Hlist Hchat.
  run_process. rewrite Hsrc, Href, Hpipe.
  cbn [fst snd files stdout requests]. rewrite Hana.
  cbn [fst snd files stdout requests]. rewrite Hlist.
  cbn [fst snd files stdout requests transfer_host transfer_model].
  rewrite Hchat. cbn [fst snd files stdout requests].
  f_equal. f_equal. rewrite <- !app_assoc. reflexivity.
Qed.

Lemma main_generation_failure_witness :
  exists w',
    main (mkEnv (spacy_load table_env) (fun _ => None)
                (fun _ => inr "model 'llama3' not found")
                (fun _ _ => "0"))
         (default_args "source.txt" "style.txt" "Hemingway") table_world
    = (Uncaught (ClientError "model 'llama3' not found"), w')
    /\ files w' = files table_world
    /\ List.length (requests w') = 1.
Proof.
  destruct table_analysis as [p Hp].
  eexists. split.
  - eapply (main_generation_failure
              (mkEnv (spacy_load table_env) (fun _ => None)
                     (fun _ => inr "model 'llama3' not found")
                     (fun _ _ => "0"))
              (default_args "source.txt" "style.txt" "Hemingway")
              table_world);
      [reflexivity | reflexivity | reflexivity | exact Hp
      | reflexivity | reflexivity].
  - split; reflexivity.
Defined.
